(** * Message analyzer: the analysis pipeline of [src/app/api/analyze/route.ts]

    A shallow embedding of the route handler: the phone normalizer, the vCard
    reader [parseVCard], the four SQL queries of the handler read as list
    programs over the tables of the message store, and the handler [POST]
    itself, written in a small state-and-exception monad that tracks the open
    database handles and the console; and of the page that calls it
    (page.tsx): its state, its event handlers and what it draws from a result.

    Strings.  A JavaScript string is modelled by [string]; every [ascii] stands
    for one UTF-16 code unit in the range 0..255.  Case-insensitive regular
    expressions of the source only fold the ASCII letters, removing [\D] keeps
    exactly the ten decimal digits, and [String.prototype.trim] removes the code units
    9, 10, 11, 12, 13, 32 and 160 in that range. *)

From Stdlib Require Import ZArith Ascii String List Bool Lia Sorting.Sorted Permutation.
From stdpp Require Import gmap strings list fin_maps sorting.

Local Open Scope string_scope.
Set Warnings "-clear-no-such-hyp".

(** ** Characters and character classes *)

Module Chars.

Definition LF : ascii := "010"%char.
Definition CR : ascii := "013"%char.
Definition TAB : ascii := "009"%char.
Definition SP : ascii := " "%char.
Definition BSL : ascii := "\"%char.

(** [\d] of the source's regular expressions. *)
Definition is_digit (c : ascii) : bool :=
  (48 <=? nat_of_ascii c)%nat && (nat_of_ascii c <=? 57)%nat.

(** The white space removed by [trim()], for code units below 256. *)
Definition is_space (c : ascii) : bool :=
  let n := nat_of_ascii c in
  ((9 <=? n)%nat && (n <=? 13)%nat) || (n =? 32)%nat || (n =? 160)%nat.

(** Canonical form of a code unit under the [i] flag: ASCII letters fold. *)
Definition upper (c : ascii) : ascii :=
  let n := nat_of_ascii c in
  if (97 <=? n)%nat && (n <=? 122)%nat then ascii_of_nat (n - 32) else c.

(** A character class: one position of a regular expression. *)
Definition cls : Type := ascii -> bool.

Definition lit (a : ascii) : cls := fun c => Ascii.eqb c a.
Definition lit_ci (a : ascii) : cls := fun c => Ascii.eqb (upper c) (upper a).
Definition one_of (l : list ascii) : cls := fun c => existsb (Ascii.eqb c) l.
Definition none_of (l : list ascii) : cls := fun c => negb (existsb (Ascii.eqb c) l).

End Chars.
Import Chars.

(** ** String primitives used by the handler *)

Module Str.

Fixpoint filter (p : cls) (s : string) : string :=
  match s with
  | "" => ""
  | String c t => if p c then String c (filter p t) else filter p t
  end.

Fixpoint forallb (p : cls) (s : string) : bool :=
  match s with
  | "" => true
  | String c t => p c && forallb p t
  end.

Fixpoint drop (n : nat) (s : string) : string :=
  match n, s with
  | O, _ => s
  | S _, "" => ""
  | S k, String _ t => drop k t
  end.

Definition is_empty (s : string) : bool :=
  match s with "" => true | _ => false end.

(** [s.slice(-n)]: the last [n] code units (all of [s] when it is shorter). *)
Definition slice_last (n : nat) (s : string) : string :=
  drop (String.length s - n) s.

(** [s.startsWith(c)] for a one-character argument. *)
Definition starts_with_char (a : ascii) (s : string) : bool :=
  match s with
  | String c _ => Ascii.eqb c a
  | "" => false
  end.

Fixpoint trim_start (s : string) : string :=
  match s with
  | String c t => if is_space c then trim_start t else s
  | "" => ""
  end.

Fixpoint trim_end (s : string) : string :=
  match s with
  | "" => ""
  | String c t =>
      let t' := trim_end t in
      if is_space c && is_empty t' then "" else String c t'
  end.

Definition trim (s : string) : string := trim_end (trim_start s).

(** The longest prefix of [s] without a line feed: what the group after the field name captures. *)
Fixpoint take_line (s : string) : string :=
  match s with
  | "" => ""
  | String c t => if Ascii.eqb c LF then "" else String c (take_line t)
  end.

(** [s.split(a)] for a one-character separator. *)
Fixpoint split_char (a : ascii) (s : string) : list string :=
  match s with
  | "" => [""]
  | String c t =>
      if Ascii.eqb c a then "" :: split_char a t
      else match split_char a t with
           | h :: r => String c h :: r
           | [] => [String c ""]
           end
  end.

(** [l.join(sep)]. *)
Fixpoint join (sep : string) (l : list string) : string :=
  match l with
  | [] => ""
  | [x] => x
  | x :: r => x ++ sep ++ join sep r
  end.

(** A fixed-length pattern (a sequence of classes) matches at the head. *)
Fixpoint matches_at (pat : list cls) (s : string) : bool :=
  match pat with
  | [] => true
  | p :: pat' =>
      match s with
      | String c t => p c && matches_at pat' t
      | "" => false
      end
  end.

(** [s.replace(/pat/g, rep)] for a fixed-length, non-empty pattern: leftmost
    matches, not overlapping.  [skip] counts the code units of the current
    match that are still to be consumed. *)
Fixpoint replace_go (pat : list cls) (rep : string) (skip : nat) (s : string) : string :=
  match s with
  | "" => ""
  | String c t =>
      match skip with
      | S k => replace_go pat rep k t
      | O =>
          if matches_at pat s
          then rep ++ replace_go pat rep (List.length pat - 1) t
          else String c (replace_go pat rep 0 t)
      end
  end.

Definition replace_all (pat : list cls) (rep : string) (s : string) : string :=
  replace_go pat rep 0 s.

(** [s.split(/pat/)] for a fixed-length, non-empty pattern without groups. *)
Fixpoint split_go (pat : list cls) (skip : nat) (s : string) : list string :=
  match s with
  | "" => [""]
  | String c t =>
      match skip with
      | S k => split_go pat k t
      | O =>
          if matches_at pat s
          then "" :: split_go pat (List.length pat - 1) t
          else match split_go pat 0 t with
               | h :: r => String c h :: r
               | [] => [String c ""]
               end
      end
  end.

Definition split_on (pat : list cls) (s : string) : list string :=
  split_go pat 0 s.

(** The text after the leftmost match of a fixed-length pattern. *)
Fixpoint after_first (pat : list cls) (s : string) : option string :=
  if matches_at pat s then Some (drop (List.length pat) s)
  else match s with
       | "" => None
       | String _ t => after_first pat t
       end.

Definition lits_ci (s : string) : list cls := List.map lit_ci (list_ascii_of_string s).

End Str.

(** ** Phone normalizer (route.ts, lines 8-11) *)

(** [phone.replace(/\D/g, '')] *)
Definition normalizePhoneNumber (phone : string) : string :=
  Str.filter is_digit phone.

(** ** Contact directory builder (route.ts, lines 14-88) *)

(** The unescape chain of lines 37 and 69: four global replacements, in this
    order; an escaped [n] becomes a space. *)
Definition unescape (s : string) : string :=
  let s1 := Str.replace_all [lit BSL; lit ","%char] "," s in
  let s2 := Str.replace_all [lit BSL; lit ";"%char] ";" s1 in
  let s3 := Str.replace_all [lit BSL; lit "n"%char] " " s2 in
  Str.replace_all [lit BSL; lit BSL] "\" s3.

(** Lines 18-21: line endings, then folded continuation lines. *)
Definition normalize_lines (vcardContent : string) : string :=
  let s1 := Str.replace_all [lit CR; lit LF] (String LF "") vcardContent in
  let s2 := Str.replace_all [lit CR] (String LF "") s1 in
  Str.replace_all [lit LF; one_of [SP; TAB]] "" s2.

(** The tail shared by the two name patterns: one optional delimiter
    (semicolon or colon), then the rest of the line as group 1. *)
Definition field_value (rest : string) : string :=
  match rest with
  | String c t => if one_of [";"; ":"]%char c then Str.take_line t else Str.take_line rest
  | "" => ""
  end.

(** Line 33: group 1 of the first match of FN (any case, anywhere in the
    chunk) followed by that tail. *)
Definition fnMatch (contact : string) : option string :=
  field_value <$> Str.after_first (Str.lits_ci "FN") contact.

(** The text after the first [N] that begins a line ([^] under the [m] flag). *)
Fixpoint after_line_initial (p : cls) (at_start : bool) (s : string) : option string :=
  match s with
  | "" => None
  | String c t =>
      if at_start && p c then Some t
      else after_line_initial p (Ascii.eqb c LF) t
  end.

(** Line 42: group 1 of the first match of a line-initial N (any case)
    followed by that tail. *)
Definition nMatch (contact : string) : option string :=
  field_value <$> after_line_initial (lit_ci "N"%char) true contact.

(** Lines 45-57: the name built from the structured field. *)
Definition name_of_N (value : string) : string :=
  let nameParts :=
    List.filter (fun p => negb (Str.is_empty p))
      (List.map Str.trim (Str.split_char ";"%char value)) in
  match nameParts with
  | [] => ""
  | _ =>
      let given := nth 1 nameParts "" in
      let family := nth 0 nameParts "" in
      let name :=
        Str.trim (Str.join " "
          (List.filter (fun p => negb (Str.is_empty p)) [given; family])) in
      if Str.is_empty name
      then match List.find (fun p => negb (Str.is_empty p)) nameParts with
           | Some p => p
           | None => ""
           end
      else name
  end.

(** Lines 30-60: the display name of one record chunk; [""] when none. *)
Definition display_name (contact : string) : string :=
  let name :=
    match fnMatch contact with
    | Some v => unescape (Str.trim v)
    | None => ""
    end in
  if Str.is_empty name
  then match nMatch contact with
       | Some v => name_of_N v
       | None => ""
       end
  else name.

(** The rest of a line after its first colon: the tail of the TEL pattern
    (parameters up to the first colon, then the value as group 1). *)
Fixpoint after_colon (rest : string) : option string :=
  match rest with
  | "" => None
  | String c t =>
      if Ascii.eqb c ":"%char then Some (Str.take_line t)
      else if Ascii.eqb c LF then None
      else after_colon t
  end.

(** Line 65: group 1 of every match of TEL (any case) with that tail.  A
    match runs to the end of its line, so the scan resumes at the next line
    feed; [skipping] is set while the scan is inside a match. *)
Fixpoint telMatches_go (skipping : bool) (s : string) : list string :=
  match s with
  | "" => []
  | String c t =>
      if skipping then telMatches_go (negb (Ascii.eqb c LF)) t
      else if Str.matches_at (Str.lits_ci "TEL") s
      then match after_colon (Str.drop 3 s) with
           | Some v => v :: telMatches_go true t
           | None => telMatches_go false t
           end
      else telMatches_go false t
  end.

Definition telMatches (contact : string) : list string := telMatches_go false contact.

(** Lines 67-83: the body of the inner loop, for one captured value. *)
Definition add_phone (name : string) (phoneToName : gmap string string) (value : string)
  : gmap string string :=
  let phone := unescape (Str.trim value) in
  let normalizedPhone := normalizePhoneNumber phone in
  if negb (Str.is_empty normalizedPhone) && (10 <=? String.length normalizedPhone)%nat
  then
    let m1 := <[normalizedPhone := name]> phoneToName in
    let m2 :=
      if (10 <? String.length normalizedPhone)%nat
      then <[Str.slice_last 10 normalizedPhone := name]> m1 else m1 in
    if (String.length normalizedPhone =? 11)%nat && Str.starts_with_char "1"%char normalizedPhone
    then <[Str.drop 1 normalizedPhone := name]> m2 else m2
  else phoneToName.

(** Lines 26-85: the body of the outer loop, for one chunk. *)
Definition add_contact (phoneToName : gmap string string) (contact : string)
  : gmap string string :=
  if Str.is_empty (Str.trim contact) then phoneToName
  else
    let name := display_name contact in
    if Str.is_empty name then phoneToName
    else foldl (add_phone name) phoneToName (telMatches contact).

(** Line 24. *)
Definition contacts_of (vcardContent : string) : list string :=
  Str.split_on (Str.lits_ci "BEGIN:VCARD") (normalize_lines vcardContent).

Definition parseVCard (vcardContent : string) : gmap string string :=
  foldl add_contact ∅ (contacts_of vcardContent).

(** ** The message store and the four queries (route.ts, lines 155-220)

    The store is the content of the four tables the queries read, with the
    columns they name.  A query is the list program its SQL text denotes. *)

Module Sql.

(** Columns have the types the queries and the handler use them at: row ids,
    dates and the direction flag are integers, the text and the read date of
    a message and the display name of a chat may be NULL. *)
Record message_row := {
  m_ROWID : Z;
  m_guid : string;
  m_text : option string;
  m_date : Z;
  m_date_read : option Z;
  m_is_from_me : Z;
  m_handle_id : Z }.

Record handle_row := { h_ROWID : Z; h_id : string }.

Record chat_row := {
  c_ROWID : Z;
  c_chat_identifier : string;
  c_display_name : option string }.

Record chat_message_join_row := { cmj_chat_id : Z; cmj_message_id : Z }.

Record Store := {
  message : list message_row;
  handle : list handle_row;
  chat : list chat_row;
  chat_message_join : list chat_message_join_row }.

(** [l LEFT JOIN r ON on]: every left row, paired with each right row that
    satisfies the condition, or once with NULL when none does. *)
Definition left_join {A B} (on : A -> B -> bool) (l : list A) (r : list B)
  : list (A * option B) :=
  flat_map
    (fun a =>
       match List.filter (on a) r with
       | [] => [(a, None)]
       | bs => List.map (fun b => (a, Some b)) bs
       end) l.

(** [GROUP BY key]: the distinct keys, each with the rows that carry it. *)
Definition group_by {A K} `{EqDecision K} (key : A -> K) (rows : list A)
  : list (K * list A) :=
  List.map (fun k => (k, List.filter (fun r => bool_decide (key r = k)) rows))
    (remove_dups (List.map key rows)).

(** [ORDER BY key DESC] and [ORDER BY key]: a sort on an integer key; rows
    that compare equal keep the order the sort gives them (SQL leaves it
    open). *)
Definition desc {A} (key : A -> Z) : relation A := fun x y => (key y <= key x)%Z.
Definition asc {A} (key : A -> Z) : relation A := fun x y => (key x <= key y)%Z.

Global Instance desc_dec {A} (key : A -> Z) : RelDecision (desc key).
Proof. intros x y. unfold desc. apply _. Defined.
Global Instance asc_dec {A} (key : A -> Z) : RelDecision (asc key).
Proof. intros x y. unfold asc. apply _. Defined.

Definition order_by {A} (R : relation A) `{!RelDecision R} (rows : list A) : list A :=
  merge_sort R rows.

(** [LIMIT n]. *)
Definition limit {A} (n : nat) (rows : list A) : list A := firstn n rows.

(** *** Time

    [m.date/1000000000 + 978307200] with SQLite's integer division (towards
    zero); ['localtime'] adds the offset of the process's time zone, which is
    a parameter [tz] here (seconds east of UTC at a given Unix time). *)
Definition unix_seconds (date : Z) : Z := Z.quot date 1000000000 + 978307200.

Definition local_seconds (tz : Z -> Z) (date : Z) : Z :=
  unix_seconds date + tz (unix_seconds date).

(** [date(...)]: the calendar day, kept as the number of days since
    1970-01-01; SQLite prints it as YYYY-MM-DD, a text that is determined by
    this number and ordered like it. *)
Definition day_of (tz : Z -> Z) (date : Z) : Z := local_seconds tz date / 86400.

(** [CAST(strftime('%H', ...) AS INTEGER)]: the hour of the local time. *)
Definition hour_of (tz : Z -> Z) (date : Z) : Z :=
  (local_seconds tz date mod 86400) / 3600.

(** *** All messages (lines 155-176); the fields are the columns 0..10 of a
    result row, in this order.

    An integer column is kept as the integer the store holds.  The handler
    receives it as a JavaScript number: the same integer within 2^53, the
    nearest double beyond, which is the case of the nanosecond timestamps.
    The statements on result rows use a timestamp for its order only, which
    the rounding keeps. *)
Record messages_result := {
  r_ROWID : Z;
  r_guid : string;
  r_text : option string;
  r_date : Z;
  r_date_read : option Z;
  r_is_from_me : Z;
  r_handle_id : Z;
  r_phone_number : option string;
  r_chat_identifier : option string;
  r_display_name : option string;
  r_readable_date : Z }.

Definition messages_from (s : Store)
  : list (message_row * option handle_row * option chat_message_join_row * option chat_row) :=
  left_join
    (fun '(m, h, j) c =>
       match j with
       | Some j => (cmj_chat_id j =? c_ROWID c)%Z
       | None => false
       end)
    (left_join (fun '(m, h) j => (m_ROWID m =? cmj_message_id j)%Z)
       (left_join (fun m h => (m_handle_id m =? h_ROWID h)%Z) (message s) (handle s))
       (chat_message_join s))
    (chat s).

Definition messages_select (tz : Z -> Z)
  (row : message_row * option handle_row * option chat_message_join_row * option chat_row)
  : messages_result :=
  let '(m, h, j, c) := row in
  {| r_ROWID := m_ROWID m;
     r_guid := m_guid m;
     r_text := m_text m;
     r_date := m_date m;
     r_date_read := m_date_read m;
     r_is_from_me := m_is_from_me m;
     r_handle_id := m_handle_id m;
     r_phone_number := h_id <$> h;
     r_chat_identifier := c_chat_identifier <$> c;
     r_display_name := c ≫= c_display_name;
     r_readable_date := local_seconds tz (m_date m) |}.

Definition messagesQuery (tz : Z -> Z) (s : Store) : list messages_result :=
  order_by (desc r_date)
    (List.map (messages_select tz) (messages_from s)).

(** *** Per-handle summary (lines 179-193); columns 0..4. *)
Record contacts_result := {
  k_ROWID : Z;
  k_phone_number : string;
  k_message_count : nat;
  k_received_count : nat;
  k_sent_count : nat }.

Global Instance contacts_result_eq_dec : EqDecision contacts_result.
Proof. solve_decision. Defined.

(** [SUM(CASE WHEN m.is_from_me = v THEN 1 ELSE 0 END)] over a group; the
    comparison is not true on the NULL row of an unmatched handle. *)
Definition count_flag (v : Z) (rows : list (handle_row * option message_row)) : nat :=
  List.length
    (List.filter
       (fun '(_, m) =>
          match m with
          | Some m => (m_is_from_me m =? v)%Z
          | None => false
          end) rows).

Definition contacts_select
  (g : (Z * string) * list (handle_row * option message_row)) : contacts_result :=
  let '((rowid, id), rows) := g in
  {| k_ROWID := rowid;
     k_phone_number := id;
     k_message_count := List.length rows;
     k_received_count := count_flag 0 rows;
     k_sent_count := count_flag 1 rows |}.

Definition contacts_from (s : Store) : list (handle_row * option message_row) :=
  left_join (fun h m => (h_ROWID h =? m_handle_id m)%Z) (handle s) (message s).

Definition contactsQuery (s : Store) : list contacts_result :=
  order_by (desc (fun k => Z.of_nat (k_message_count k)))
    (remove_dups
       (List.map contacts_select
          (group_by (fun '(h, _) => (h_ROWID h, h_id h)) (contacts_from s)))).

(** *** Daily counts (lines 196-207); columns 0..1. *)
Definition dailyStatsQuery (tz : Z -> Z) (s : Store) : list (Z * nat) :=
  limit 365
    (order_by (desc fst)
       (List.map (fun '(day, rows) => (day, List.length rows))
          (group_by (fun m => day_of tz (m_date m)) (message s)))).

(** *** Hourly counts (lines 210-220); columns 0..1. *)
Definition hourlyStatsQuery (tz : Z -> Z) (s : Store) : list (Z * nat) :=
  order_by (asc fst)
    (List.map (fun '(hour, rows) => (hour, List.length rows))
       (group_by (fun m => hour_of tz (m_date m)) (message s))).

End Sql.
Import Sql.

(** ** The shape of the response (the object built at lines 229-284) *)

Module Message.
Record t := {
  id : Z;
  guid : string;
  text : option string;
  date : Z;
  dateRead : option Z;
  isFromMe : bool;
  handleId : Z;
  phoneNumber : option string;
  contactName : option string;
  chatIdentifier : option string;
  displayName : option string;
  readableDate : Z }.
End Message.

Module Contact.
Record t := {
  id : Z;
  phoneNumber : string;
  contactName : option string;
  messageCount : nat;
  receivedCount : nat;
  sentCount : nat }.
End Contact.

Module DailyStat.
Record t := { day : Z; count : nat }.
End DailyStat.

Module HourlyStat.
Record t := { hour : Z; count : nat }.
End HourlyStat.

Module Summary.
Record t := {
  totalMessages : nat;
  sentMessages : nat;
  receivedMessages : nat;
  uniqueContacts : nat }.
End Summary.

Record AnalysisResult := {
  summary : Summary.t;
  contacts : list Contact.t;
  dailyStats : list DailyStat.t;
  hourlyStats : list HourlyStat.t;
  messages : list Message.t }.

(** [NextResponse.json(body)] and [NextResponse.json({ error }, { status })]. *)
Inductive Response :=
| Json (body : AnalysisResult)
| JsonError (status : Z) (error : string).

(** ** The handler's effects

    The handler runs in a process: it reads the time zone and the WASM binary
    of the SQL engine, it opens and closes database instances, it writes to
    the console, and any step may throw. *)

Record World := {
  tz : Z -> Z;
  (** [None] when sql-wasm.wasm can be read from one of the two paths; else
      the message of the [Error] thrown at line 139. *)
  wasm_missing : option string;
  (** Database instances created and not closed. *)
  open_databases : nat;
  console : list string }.

Inductive outcome (A : Type) :=
| Returned (a : A)
| Thrown (message : string).
Arguments Returned {A} a.
Arguments Thrown {A} message.

Definition M (A : Type) : Type := World -> outcome A * World.

Definition ret {A} (a : A) : M A := fun w => (Returned a, w).

Definition throw {A} (message : string) : M A := fun w => (Thrown message, w).

Definition bind {A B} (m : M A) (k : A -> M B) : M B :=
  fun w =>
    match m w with
    | (Returned a, w') => k a w'
    | (Thrown e, w') => (Thrown e, w')
    end.

(** [try { m } catch (error) { handler(error) }] *)
Definition try_catch {A} (m : M A) (handler : string -> M A) : M A :=
  fun w =>
    match m w with
    | (Returned a, w') => (Returned a, w')
    | (Thrown e, w') => handler e w'
    end.

Notation "'do' x <- m ; k" := (bind m (fun x => k))
  (at level 10, x name, m at level 100, k at level 200).
Notation "m ;; k" := (bind m (fun _ => k))
  (at level 100, k at level 200, right associativity).

Definition console_error (label message : string) : M unit :=
  fun w =>
    (Returned tt,
     {| tz := tz w; wasm_missing := wasm_missing w;
        open_databases := open_databases w;
        console := console w ++ [label ++ " " ++ message] |}).

(** Lines 125-148: reading the WASM binary and starting the engine. *)
Definition initSqlJs : M unit :=
  fun w =>
    match wasm_missing w with
    | None => (Returned tt, w)
    | Some e => (Thrown e, w)
    end.

(** What the engine finds in the uploaded bytes: a database with the tables
    and columns the queries name, or something on which they fail with the
    given message. *)
Inductive db_file :=
| Db (s : Store)
| NotDb (message : string).

(** The contacts upload: [contactsFile.text()] resolves to a text or rejects. *)
Inductive contacts_file :=
| Text (t : string)
| Unreadable (message : string).

Record Database := { content : db_file }.

(** [new SQL.Database(bytes)] *)
Definition new_Database (f : db_file) : M Database :=
  fun w =>
    (Returned {| content := f |},
     {| tz := tz w; wasm_missing := wasm_missing w;
        open_databases := S (open_databases w);
        console := console w |}).

(** [db.exec(query)[0]?.values || []] *)
Definition db_exec {A} (db : Database) (query : (Z -> Z) -> Store -> list A) : M (list A) :=
  fun w =>
    match content db with
    | Db s => (Returned (query (tz w) s), w)
    | NotDb e => (Thrown e, w)
    end.

(** [db.close()] *)
Definition db_close (db : Database) : M unit :=
  fun w =>
    (Returned tt,
     {| tz := tz w; wasm_missing := wasm_missing w;
        open_databases := pred (open_databases w);
        console := console w |}).

(** [contactsFile.text()] *)
Definition file_text (f : contacts_file) : M string :=
  match f with
  | Text t => ret t
  | Unreadable e => throw e
  end.

(** ** Statistics assembler and handler (route.ts, lines 90-292) *)

(** [a || b] on values that are a string, [undefined] or [null]. *)
Definition or_else (a b : option string) : option string :=
  match a with
  | Some s => if Str.is_empty s then b else Some s
  | None => b
  end.

(** Lines 113-117. *)
Definition getContactName (phoneToNameMap : gmap string string)
  (phoneNumber : option string) : option string :=
  match phoneNumber with
  | None => None
  | Some p =>
      if Str.is_empty p then None
      else
        let normalized := normalizePhoneNumber p in
        or_else (phoneToNameMap !! normalized)
          (or_else (phoneToNameMap !! Str.slice_last 10 normalized) None)
  end.

(** Lines 229-246. *)
Definition format_message (phoneToNameMap : gmap string string) (msg : messages_result)
  : Message.t :=
  let phoneNumber := r_phone_number msg in
  let contactName := getContactName phoneToNameMap phoneNumber in
  {| Message.id := r_ROWID msg;
     Message.guid := r_guid msg;
     Message.text := r_text msg;
     Message.date := r_date msg;
     Message.dateRead := r_date_read msg;
     Message.isFromMe := (r_is_from_me msg =? 1)%Z;
     Message.handleId := r_handle_id msg;
     Message.phoneNumber := phoneNumber;
     Message.contactName := contactName;
     Message.chatIdentifier := r_chat_identifier msg;
     Message.displayName := r_display_name msg;
     Message.readableDate := r_readable_date msg |}.

(** Lines 248-259. *)
Definition format_contact (phoneToNameMap : gmap string string) (contact : contacts_result)
  : Contact.t :=
  let phoneNumber := k_phone_number contact in
  let contactName := getContactName phoneToNameMap (Some phoneNumber) in
  {| Contact.id := k_ROWID contact;
     Contact.phoneNumber := phoneNumber;
     Contact.contactName := contactName;
     Contact.messageCount := k_message_count contact;
     Contact.receivedCount := k_received_count contact;
     Contact.sentCount := k_sent_count contact |}.

(** Lines 222-284 without the effects: the response body from the four row
    sets and the directory. *)
Definition assemble (phoneToNameMap : gmap string string)
  (messages : list messages_result) (contacts : list contacts_result)
  (dailyStats hourlyStats : list (Z * nat)) : AnalysisResult :=
  let totalMessages := List.length messages in
  let sentMessages :=
    List.length (List.filter (fun m => (r_is_from_me m =? 1)%Z) messages) in
  let receivedMessages :=
    List.length (List.filter (fun m => (r_is_from_me m =? 0)%Z) messages) in
  let uniqueContacts := List.length contacts in
  let formattedMessages := List.map (format_message phoneToNameMap) messages in
  let formattedContacts := List.map (format_contact phoneToNameMap) contacts in
  let formattedDailyStats :=
    List.map (fun stat => {| DailyStat.day := fst stat; DailyStat.count := snd stat |})
      dailyStats in
  let formattedHourlyStats :=
    List.map (fun stat => {| HourlyStat.hour := fst stat; HourlyStat.count := snd stat |})
      hourlyStats in
  {| summary :=
       {| Summary.totalMessages := totalMessages;
          Summary.sentMessages := sentMessages;
          Summary.receivedMessages := receivedMessages;
          Summary.uniqueContacts := uniqueContacts |};
     contacts := formattedContacts;
     dailyStats := formattedDailyStats;
     hourlyStats := formattedHourlyStats;
     messages := firstn 100 formattedMessages |}.

Record Request := {
  file : option db_file;
  contactsFile : option contacts_file }.

(** Lines 100-110. *)
Definition read_contacts (contactsFile : option contacts_file) : M (gmap string string) :=
  match contactsFile with
  | None => ret ∅
  | Some f =>
      try_catch
        (do contactsContent <- file_text f;
         ret (parseVCard contactsContent))
        (fun error =>
           console_error "Error parsing contacts file:" error;;
           ret ∅)
  end.

Definition POST (request : Request) : M Response :=
  try_catch
    (match file request with
     | None => ret (JsonError 400 "No file provided")
     | Some file =>
         do phoneToNameMap <- read_contacts (contactsFile request);
         initSqlJs;;
         do db <- new_Database file;
         do messages <- db_exec db messagesQuery;
         do contacts <- db_exec db (fun _ => contactsQuery);
         do dailyStats <- db_exec db dailyStatsQuery;
         do hourlyStats <- db_exec db hourlyStatsQuery;
         db_close db;;
         ret (Json (assemble phoneToNameMap messages contacts dailyStats hourlyStats))
     end)
    (fun error =>
       console_error "Error analyzing chat.db:" error;;
       ret (JsonError 500
              (if Str.is_empty error then "Failed to analyze chat.db" else error))).

(** ** The page that calls the handler (page.tsx, lines 38-110, and the
    markup that binds the handlers and renders the result)

    The component keeps five state cells.  An analysis is asynchronous: the
    handler runs up to its [await fetch], other events are handled while the
    request is in flight, and the rest of the handler runs on the state of
    that moment when the answer arrives. *)

(** The JSON object a response carries, and [response.ok]. *)
Inductive Payload :=
| Analysis (body : AnalysisResult)
| ErrorObject (error : string).

Definition json (response : Response) : Payload :=
  match response with
  | Json body => Analysis body
  | JsonError _ error => ErrorObject error
  end.

Definition ok (response : Response) : bool :=
  match response with
  | Json _ => true
  | JsonError status _ => ((200 <=? status) && (status <=? 299))%Z
  end.

(** Lines 72-76: the form holds the file, and the contacts file when one is
    selected. *)
Definition formData (file : db_file) (contactsFile : option contacts_file) : Request :=
  {| file := Some file; contactsFile := contactsFile |}.

(** The request reaches the handler, or [fetch] rejects with a message. *)
Inductive network :=
| Up
| Down (message : string).

(** [fetch('/api/analyze', { method: 'POST', body })] *)
Definition fetch (net : network) (body : Request) : M Response :=
  match net with
  | Up => POST body
  | Down message => throw message
  end.

Module Page.

(** Lines 39-43. *)
Record State := {
  file : option db_file;
  contactsFile : option contacts_file;
  loading : bool;
  data : option Payload;
  error : option string }.

Definition setFile (v : option db_file) (st : State) : State :=
  {| file := v; contactsFile := contactsFile st; loading := loading st;
     data := data st; error := error st |}.

Definition setContactsFile (v : option contacts_file) (st : State) : State :=
  {| file := file st; contactsFile := v; loading := loading st;
     data := data st; error := error st |}.

Definition setLoading (v : bool) (st : State) : State :=
  {| file := file st; contactsFile := contactsFile st; loading := v;
     data := data st; error := error st |}.

Definition setData (v : option Payload) (st : State) : State :=
  {| file := file st; contactsFile := contactsFile st; loading := loading st;
     data := v; error := error st |}.

Definition setError (v : option string) (st : State) : State :=
  {| file := file st; contactsFile := contactsFile st; loading := loading st;
     data := data st; error := v |}.

(** Lines 47-53; [picked] is [e.target.files[0]] when there is one. *)
Definition handleFileChange (picked : option db_file) (st : State) : State :=
  match picked with
  | Some f => setData None (setError None (setFile (Some f) st))
  | None => st
  end.

(** Lines 55-60. *)
Definition handleContactsFileChange (picked : option contacts_file) (st : State)
  : State :=
  match picked with
  | Some f => setError None (setContactsFile (Some f) st)
  | None => st
  end.

(** Lines 102-110; [picked] is [e.dataTransfer.files[0]]. *)
Definition handleDrop (picked : option db_file) (st : State) : State :=
  match picked with
  | Some f => setData None (setError None (setFile (Some f) st))
  | None => st
  end.

(** Lines 218-223: the Remove button. *)
Definition removeContacts (st : State) : State := setContactsFile None st.

(** Lines 62-78: [handleUpload] up to its [await fetch]: the new state, and
    the form that is sent when one is. *)
Definition handleUpload_begin (st : State) : State * option Request :=
  match file st with
  | None => (setError (Some "Please select a file first") st, None)
  | Some f =>
      (setError None (setLoading true st), Some (formData f (contactsFile st)))
  end.

(** Lines 78-94: the rest of [handleUpload], on the state the answer finds. *)
Definition handleUpload_end (net : network) (body : Request) (st : State) : M State :=
  do st' <-
    try_catch
      (do response <- fetch net body;
       if negb (ok response) then
         throw
           match json response with
           | ErrorObject e => if Str.is_empty e then "Failed to analyze file" else e
           | Analysis _ => "Failed to analyze file"
           end
       else ret (setData (Some (json response)) st))
      (fun message =>
         ret (setError
                (Some (if Str.is_empty message
                       then "An error occurred while analyzing the file"
                       else message)) st));
  ret (setLoading false st').

(** [handleUpload] when nothing else happens before the answer. *)
Definition handleUpload (net : network) (st : State) : M State :=
  match handleUpload_begin st with
  | (st1, Some body) => handleUpload_end net body st1
  | (st1, None) => ret st1
  end.

(** Lines 166-169: the Analyze button is there when a file is selected and is
    disabled while [loading]. *)
Definition analyze_enabled (st : State) : bool :=
  match file st with
  | Some _ => negb (loading st)
  | None => false
  end.

(** Lines 216-217: the Remove button is there when a contacts file is
    selected. *)
Definition remove_shown (st : State) : bool :=
  match contactsFile st with
  | Some _ => true
  | None => false
  end.

(** The page between two events: its state, and the request that waits for
    its answer. *)
Record Session := {
  view : State;
  in_flight : option Request }.

Definition initial : Session :=
  {| view := {| file := None; contactsFile := None; loading := false;
                data := None; error := None |};
     in_flight := None |}.

Inductive event :=
| ChooseFile (picked : option db_file)
| DropFile (picked : option db_file)
| ChooseContacts (picked : option contacts_file)
| ClickRemove
| ClickAnalyze
| Answer (net : network).

Definition step (e : event) (p : Session) : M Session :=
  match e with
  | ChooseFile picked =>
      ret {| view := handleFileChange picked (view p); in_flight := in_flight p |}
  | DropFile picked =>
      ret {| view := handleDrop picked (view p); in_flight := in_flight p |}
  | ChooseContacts picked =>
      ret {| view := handleContactsFileChange picked (view p);
             in_flight := in_flight p |}
  | ClickRemove =>
      if remove_shown (view p)
      then ret {| view := removeContacts (view p); in_flight := in_flight p |}
      else ret p
  | ClickAnalyze =>
      if analyze_enabled (view p)
      then
        match handleUpload_begin (view p) with
        | (st, Some body) => ret {| view := st; in_flight := Some body |}
        | (st, None) => ret {| view := st; in_flight := in_flight p |}
        end
      else ret p
  | Answer net =>
      match in_flight p with
      | Some body =>
          do st <- handleUpload_end net body (view p);
          ret {| view := st; in_flight := None |}
      | None => ret p
      end
  end.

Fixpoint run (events : list event) (p : Session) : M Session :=
  match events with
  | [] => ret p
  | e :: events => do p' <- step e p; run events p'
  end.

(** Line 179: the error box is rendered when [error] is truthy. *)
Definition error_box (st : State) : option string :=
  match error st with
  | Some e => if Str.is_empty e then None else Some e
  | None => None
  end.

(** Line 284: [data.dailyStats.slice().reverse()]. *)
Definition chart_days (body : AnalysisResult) : list DailyStat.t :=
  reverse (dailyStats body).

(** Line 327: [data.contacts.slice(0, 20)]. *)
Definition table_rows (body : AnalysisResult) : list Contact.t :=
  firstn 20 (contacts body).

(** Lines 334-343: the first cell of a row: its main line, and the small
    line under it when there is one. *)
Definition contact_cell (contact : Contact.t) : string * option string :=
  let number :=
    if Str.is_empty (Contact.phoneNumber contact) then "Unknown"
    else Contact.phoneNumber contact in
  match Contact.contactName contact with
  | Some name => if Str.is_empty name then (number, None) else (name, Some number)
  | None => (number, None)
  end.

End Page.

(** * Notions used in the statements *)

(** ** Sample address books *)

(** Concrete texts are written line by line. *)
Definition text_of_lines (l : list string) : string := Str.join (String LF "") l.

(** The address book of the specification's scenario. *)
Definition jane : string :=
  text_of_lines ["BEGIN:VCARD"; "FN:Jane Doe"; "TEL:+1 (555) 123-4567"; "END:VCARD"].

(** Its only record, as [parseVCard] cuts it out. *)
Definition jane_record : string :=
  text_of_lines [""; "FN:Jane Doe"; "TEL:+1 (555) 123-4567"; "END:VCARD"].

Definition alice_then_bob : string :=
  text_of_lines
    ["BEGIN:VCARD"; "FN:Alice"; "TEL:555-123-4567"; "END:VCARD";
     "BEGIN:VCARD"; "FN:Bob"; "TEL:(555) 123-4567"; "END:VCARD"].

Definition alice_long_bob_short : string :=
  text_of_lines
    ["BEGIN:VCARD"; "FN:Alice"; "TEL:+1 (555) 123-4567"; "END:VCARD";
     "BEGIN:VCARD"; "FN:Bob"; "TEL:555-123-4567"; "END:VCARD"].

Definition escaped_line_break : string :=
  text_of_lines [""; "FN:Jane\nDoe"; "TEL:555-123-4567"; "END:VCARD"].

Definition note_only : string :=
  text_of_lines ["BEGIN:VCARD"; "NOTE:call me"; "TEL:555-123-4567"; "END:VCARD"].

Definition hoffnung_record : string :=
  text_of_lines [""; "N:Hoffnung;Eva"; "TEL:555-123-4567"; "END:VCARD"].

(** ** Sample stores and a sample process *)

Definition message_at (rowid date flag handle_id : Z) : message_row :=
  {| m_ROWID := rowid; m_guid := "guid"; m_text := Some "hello";
     m_date := date; m_date_read := None;
     m_is_from_me := flag; m_handle_id := handle_id |}.

Definition jane_handle : handle_row := {| h_ROWID := 1; h_id := "+15551234567" |}.

(** One outgoing and one incoming message, both with Jane. *)
Definition two_messages : Store :=
  {| message := [message_at 1 700000000000000000 1 1;
                 message_at 2 700000060000000000 0 1];
     handle := [jane_handle]; chat := []; chat_message_join := [] |}.

(** A message whose direction flag is neither 0 nor 1. *)
Definition odd_flag : Store :=
  {| message := [message_at 1 700000000000000000 2 1];
     handle := [jane_handle]; chat := []; chat_message_join := [] |}.

(** A handle without any message. *)
Definition silent_handle : Store :=
  {| message := []; handle := [jane_handle]; chat := []; chat_message_join := [] |}.

(** One message, joined to two chats. *)
Definition two_chats : Store :=
  {| message := [message_at 1 700000000000000000 0 1];
     handle := [jane_handle];
     chat := [{| c_ROWID := 1; c_chat_identifier := "chat-a"; c_display_name := None |};
              {| c_ROWID := 2; c_chat_identifier := "chat-b"; c_display_name := None |}];
     chat_message_join := [{| cmj_chat_id := 1; cmj_message_id := 1 |};
                           {| cmj_chat_id := 2; cmj_message_id := 1 |}] |}.

Definition quiet_world : World :=
  {| tz := fun _ => 0%Z; wasm_missing := None; open_databases := 0; console := [] |}.

(** ** The keys a record writes *)

(** The keys [add_phone] assigns for one captured telephone value. *)
Definition phone_keys (value : string) : list string :=
  let normalizedPhone := normalizePhoneNumber (unescape (Str.trim value)) in
  if negb (Str.is_empty normalizedPhone) && (10 <=? String.length normalizedPhone)%nat
  then
    normalizedPhone
    :: (if (10 <? String.length normalizedPhone)%nat
        then [Str.slice_last 10 normalizedPhone] else [])
    ++ (if (String.length normalizedPhone =? 11)%nat
           && Str.starts_with_char "1"%char normalizedPhone
        then [Str.drop 1 normalizedPhone] else [])
  else [].

(** The keys [add_contact] assigns for one chunk. *)
Definition contact_keys (contact : string) : list string :=
  if Str.is_empty (Str.trim contact) then []
  else if Str.is_empty (display_name contact) then []
  else flat_map phone_keys (telMatches contact).

(** A directory in which every key has at least 10 digits, and every 11-digit
    key that starts with 1 comes with its 10-digit suffix. *)
Definition keys_well_formed (d : gmap string string) : Prop :=
  forall k n, d !! k = Some n ->
    10 <= String.length k
    /\ Str.forallb is_digit k = true
    /\ (String.length k = 11 -> Str.starts_with_char "1"%char k = true ->
        is_Some (d !! Str.drop 1 k)).

(** ** Where a pattern stands in a chunk *)

(** The pattern matches somewhere in [s]. *)
Fixpoint occurs (pat : list cls) (s : string) : bool :=
  Str.matches_at pat s
  || match s with
     | "" => false
     | String _ t => occurs pat t
     end.

(** No match of the pattern in [pre ++ post] starts inside [pre]. *)
Fixpoint none_before (pat : list cls) (pre post : string) : bool :=
  match pre with
  | "" => true
  | String _ t => negb (Str.matches_at pat (pre ++ post)) && none_before pat t post
  end.

(** [pre] is empty or ends with a line feed: what follows begins a line. *)
Fixpoint ends_line (pre : string) : bool :=
  match pre with
  | "" => true
  | String c "" => Ascii.eqb c LF
  | String _ t => ends_line t
  end.

Definition starts_with (p : cls) (s : string) : bool :=
  match s with
  | String c _ => p c
  | "" => false
  end.

(** Some line of [s] begins with a character of the class. *)
Definition has_line_starting (p : cls) (s : string) : bool :=
  existsb (starts_with p) (Str.split_char LF s).

(** Some line of the chunk begins with the pattern. *)
Definition has_line_matching (pat : list cls) (contact : string) : bool :=
  existsb (Str.matches_at pat) (Str.split_char LF contact).

(** Some line of the chunk is the named field: the name, then a colon or a
    semicolon. *)
Definition has_field (name : string) (contact : string) : bool :=
  existsb
    (Str.matches_at (Str.lits_ci name ++ [one_of [":"; ";"]%char]))
    (Str.split_char LF contact).

(** [rest] is at the end of a line. *)
Definition at_line_end (rest : string) : bool :=
  match rest with
  | "" => true
  | String c _ => Ascii.eqb c LF
  end.

Definition no_line_feed (v : string) : bool := Str.forallb (none_of [LF]) v.

(** What the scan for a line-initial character still has to look at: every
    line when it stands at the start of one, the later lines otherwise. *)
Definition lines_ahead (at_start : bool) (s : string) : list string :=
  if at_start then Str.split_char LF s else List.tl (Str.split_char LF s).

(** ** The structured name *)

Definition non_empty (p : string) : bool := negb (Str.is_empty p).

(** The trimmed components of a structured-name value. *)
Definition components (value : string) : list string :=
  List.map Str.trim (Str.split_char ";"%char value).

(** ** What a response is made of *)

(** The directory the handler works with, for each kind of contacts upload. *)
Definition directory_of (contactsFile : option contacts_file) : gmap string string :=
  match contactsFile with
  | Some (Text t) => parseVCard t
  | Some (Unreadable _) => ∅
  | None => ∅
  end.

(** The response body for a readable store. *)
Definition analysis (w : World) (s : Store) (contactsFile : option contacts_file)
  : AnalysisResult :=
  assemble (directory_of contactsFile)
    (messagesQuery (tz w) s) (contactsQuery s)
    (dailyStatsQuery (tz w) s) (hourlyStatsQuery (tz w) s).

Definition succeeds (r : outcome Response) : Prop :=
  exists body, r = Returned (Json body).

(** ** Conditions on a store *)

(** The keys of the store: the row ids of handles and chats are unique, and
    no message is joined to more than one chat. *)
Definition keys_unique (s : Store) : Prop :=
  NoDup (List.map h_ROWID (handle s))
  /\ NoDup (List.map c_ROWID (chat s))
  /\ NoDup (List.map cmj_message_id (chat_message_join s)).

Definition handle_of (s : Store) (m : message_row) : option handle_row :=
  head (List.filter (fun h => (m_handle_id m =? h_ROWID h)%Z) (handle s)).

Definition join_of (s : Store) (m : message_row) : option chat_message_join_row :=
  head (List.filter (fun j => (m_ROWID m =? cmj_message_id j)%Z) (chat_message_join s)).

Definition chat_of (s : Store) (j : chat_message_join_row) : option chat_row :=
  head (List.filter (fun c => (cmj_chat_id j =? c_ROWID c)%Z) (chat s)).

Definition row_of (s : Store) (m : message_row)
  : message_row * option handle_row * option chat_message_join_row * option chat_row :=
  (m, handle_of s m, join_of s m, join_of s m ≫= chat_of s).

Definition flags_boolean (s : Store) : Prop :=
  Forall (fun m => m_is_from_me m = 0%Z \/ m_is_from_me m = 1%Z) (message s).

Definition non_null {A} (o : option A) : bool :=
  match o with Some _ => true | None => false end.

(** Every handle has sent or received at least one message. *)
Definition every_handle_used (s : Store) : Prop :=
  forall h, h ∈ handle s ->
    exists m, m ∈ message s /\ m_handle_id m = h_ROWID h.

(** ** Readings of the specification that the code does not meet *)

(** The reading of the directory as an insert-if-absent fold: a mapping
    present after a prefix of the records is still there after all of them. *)
Definition first_writer_wins : Prop :=
  forall (text : string) (before after : list string) (k n : string),
    contacts_of text = (before ++ after)%list ->
    foldl add_contact ∅ before !! k = Some n ->
    parseVCard text !! k = Some n.

(** The reading of the suffix rule on the finished directory: an 11-digit key
    that starts with 1 and its 10-digit suffix carry the same name. *)
Definition suffix_key_same_name : Prop :=
  forall (text k n : string),
    parseVCard text !! k = Some n ->
    String.length k = 11 ->
    Str.starts_with_char "1"%char k = true ->
    parseVCard text !! Str.drop 1 k = Some n.

(** Unescaping as the specification words it, in one pass from the left: a
    backslash before a comma, a semicolon or a backslash is dropped, and
    backslash-n stands for a line feed. *)
Fixpoint unescape_as_specified (s : string) : string :=
  match s with
  | "" => ""
  | String a t =>
      if Ascii.eqb a BSL
      then match t with
           | String b t' =>
               if one_of [","; ";"; BSL]%char b then String b (unescape_as_specified t')
               else if Ascii.eqb b "n"%char then String LF (unescape_as_specified t')
               else String a (unescape_as_specified t)
           | "" => String a ""
           end
      else String a (unescape_as_specified t)
  end.

(** The reading of the full-name rule: the display name of a record with a
    full-name field is the value of the field, unescaped as specified. *)
Definition full_name_unescaped : Prop :=
  forall pre v rest,
    none_before (Str.lits_ci "FN") pre ("FN:" ++ v ++ rest) = true ->
    ends_line pre = true ->
    no_line_feed v = true -> at_line_end rest = true ->
    unescape_as_specified (Str.trim v) <> "" ->
    display_name (pre ++ "FN:" ++ v ++ rest) = unescape_as_specified (Str.trim v).

(** The reading of the rule for records without a name: a record with neither
    a full-name nor a structured-name field adds nothing. *)
Definition nameless_adds_nothing : Prop :=
  forall (d : gmap string string) (contact : string),
    has_field "FN" contact = false ->
    has_field "N" contact = false ->
    add_contact d contact = d.

(** The reading of the received count as the count of rows that are not from
    me. *)
Definition received_is_not_from_me : Prop :=
  forall w s cf body,
    fst (POST {| file := Some (Db s); contactsFile := cf |} w) = Returned (Json body) ->
    Summary.receivedMessages (summary body)
    = List.length
        (List.filter (fun m => negb (Message.isFromMe m))
           (List.map (format_message (directory_of cf)) (messagesQuery (tz w) s))).

(** The reading of the row invariant over every store. *)
Definition summary_rows_add_up : Prop :=
  forall w s cf body,
    fst (POST {| file := Some (Db s); contactsFile := cf |} w) = Returned (Json body) ->
    Forall (fun c => Contact.receivedCount c + Contact.sentCount c = Contact.messageCount c)
      (contacts body).

(** ** Further notions: address books *)

(** The key a telephone value is filed under: lines 67-70. *)
Definition key_of_value (value : string) : string :=
  normalizePhoneNumber (unescape (Str.trim value)).

(** The same text with Windows line endings: a carriage return before every
    line feed. *)
Fixpoint to_crlf (s : string) : string :=
  match s with
  | "" => ""
  | String c t =>
      if Ascii.eqb c LF then String CR (String LF (to_crlf t))
      else String c (to_crlf t)
  end.

(** A text without the given character. *)
Definition free_of (a : ascii) (s : string) : bool := Str.forallb (none_of [a]) s.

(** ** Further notions: stores *)

(** A message a day for 366 days, from 2001-01-01 on. *)
Definition long_history : Store :=
  {| message :=
       List.map (fun i => message_at (i + 1) (i * 86400000000000) 0 1) (seqZ 0 366);
     handle := [jane_handle]; chat := []; chat_message_join := [] |}.

(** A result row of the all-messages query is a row of the message [m]: it
    carries its row id, guid, text, direction flag and handle id.  The two
    timestamps are not compared: they are nanosecond counts, which the handler
    receives as floating-point numbers. *)
Definition shows (r : messages_result) (m : message_row) : Prop :=
  r_ROWID r = m_ROWID m /\ r_guid r = m_guid m /\ r_text r = m_text m
  /\ r_is_from_me r = m_is_from_me m /\ r_handle_id r = m_handle_id m.

(** The phone number of a result row is the id of a handle the message
    points to, or NULL when it points to none. *)
Definition phone_number_of (s : Store) (m : message_row) (p : option string) : Prop :=
  match p with
  | Some id => exists h, h ∈ handle s /\ h_ROWID h = m_handle_id m /\ h_id h = id
  | None => forall h, h ∈ handle s -> h_ROWID h <> m_handle_id m
  end.

(** ** Further notions: responses *)

(** A response body with every resolved name taken out. *)
Definition without_names (body : AnalysisResult) : AnalysisResult :=
  {| summary := summary body;
     contacts :=
       List.map
         (fun c =>
            {| Contact.id := Contact.id c;
               Contact.phoneNumber := Contact.phoneNumber c;
               Contact.contactName := None;
               Contact.messageCount := Contact.messageCount c;
               Contact.receivedCount := Contact.receivedCount c;
               Contact.sentCount := Contact.sentCount c |})
         (contacts body);
     dailyStats := dailyStats body;
     hourlyStats := hourlyStats body;
     messages :=
       List.map
         (fun m =>
            {| Message.id := Message.id m;
               Message.guid := Message.guid m;
               Message.text := Message.text m;
               Message.date := Message.date m;
               Message.dateRead := Message.dateRead m;
               Message.isFromMe := Message.isFromMe m;
               Message.handleId := Message.handleId m;
               Message.phoneNumber := Message.phoneNumber m;
               Message.contactName := None;
               Message.chatIdentifier := Message.chatIdentifier m;
               Message.displayName := Message.displayName m;
               Message.readableDate := Message.readableDate m |})
         (messages body) |}.

(** The request reaches a query that fails: the engine loads and the upload
    is not a database the queries can read. *)
Definition query_fails (request : Request) (w : World) : bool :=
  match file request, wasm_missing w with
  | Some (NotDb _), None => true
  | _, _ => false
  end.

(** ** Further notions: folded lines *)

(** [s] ends with the character [a]. *)
Fixpoint ends_with (a : ascii) (s : string) : bool :=
  match s with
  | "" => false
  | String c "" => Ascii.eqb c a
  | String _ t => ends_with a t
  end.

(** A line of [jane] folded in the middle of its telephone number. *)
Definition jane_folded_head : string :=
  text_of_lines ["BEGIN:VCARD"; "FN:Jane Doe"; "TEL:+1 (555) 123"].

Definition jane_folded_tail : string :=
  text_of_lines ["-4567"; "END:VCARD"].

(** ** Further notions: the page *)

(** The state the answer to a request leaves, before [loading] is reset. *)
Definition answer_shown (net : network) (body : Request) (w : World)
  (st : Page.State) : Page.State :=
  match net with
  | Up =>
      match fst (POST body w) with
      | Returned (Json result) => Page.setData (Some (Analysis result)) st
      | Returned (JsonError _ message) => Page.setError (Some message) st
      | Thrown _ => st
      end
  | Down message =>
      Page.setError
        (Some (if Str.is_empty message
               then "An error occurred while analyzing the file" else message)) st
  end.

(** What holds of the page between any two events. *)
Definition consistent (p : Page.Session) : Prop :=
  (Page.loading (Page.view p) = true <-> is_Some (Page.in_flight p))
  /\ (forall body, Page.in_flight p = Some body -> is_Some (file body))
  /\ (is_Some (Page.in_flight p) -> is_Some (Page.file (Page.view p)))
  /\ (forall d, Page.data (Page.view p) = Some d ->
        (exists result, d = Analysis result) /\ is_Some (Page.file (Page.view p)))
  /\ Page.error (Page.view p) <> Some "".

(** A page on which [later] is selected while the answer for [sent] is
    awaited. *)
Definition waiting_for (sent later : db_file) : Page.Session :=
  {| Page.view :=
       {| Page.file := Some later; Page.contactsFile := None;
          Page.loading := true; Page.data := None; Page.error := None |};
     Page.in_flight := Some (formData sent None) |}.

(** * Properties *)

(** ** String lemmas *)

Module StrFacts.

Lemma filter_filter (p : cls) (s : string) :
  Str.filter p (Str.filter p s) = Str.filter p s.
Proof.
  induction s as [|c t IH]; simpl; [reflexivity|].
  destruct (p c) eqn:E; simpl; [rewrite E, IH|]; done.
Qed.

Lemma forallb_filter (p : cls) (s : string) :
  Str.forallb p (Str.filter p s) = true.
Proof.
  induction s as [|c t IH]; simpl; [reflexivity|].
  destruct (p c) eqn:E; simpl; [rewrite E|]; done.
Qed.

Lemma length_drop (n : nat) (s : string) :
  String.length (Str.drop n s) = String.length s - n.
Proof.
  revert s; induction n as [|n IH]; intros [|c t]; simpl; auto with lia.
Qed.

Lemma forallb_drop (p : cls) (n : nat) (s : string) :
  Str.forallb p s = true -> Str.forallb p (Str.drop n s) = true.
Proof.
  revert s; induction n as [|n IH]; intros [|c t]; simpl; auto.
  intros [_ H]%andb_true_iff. auto.
Qed.

Lemma length_slice_last (n : nat) (s : string) :
  n <= String.length s -> String.length (Str.slice_last n s) = n.
Proof. intros H. unfold Str.slice_last. rewrite length_drop. lia. Qed.

Lemma app_assoc (a b c : string) : a ++ b ++ c = (a ++ b) ++ c.
Proof.
  induction a as [|x a IH]; [done|].
  change (String x (a ++ b ++ c) = String x ((a ++ b) ++ c)). by rewrite IH.
Qed.

Lemma is_empty_true (s : string) : Str.is_empty s = true <-> s = "".
Proof. destruct s; simpl; split; congruence. Qed.

Lemma is_empty_false (s : string) : Str.is_empty s = false <-> s <> "".
Proof. destruct s; simpl; split; congruence. Qed.

End StrFacts.
Import StrFacts.

(** ** Phone normalizer *)

(** C8. For every phone string [x], normalizing twice is normalizing once,
    the result consists of decimal digits only, and the empty string is
    mapped to the empty key; [normalizePhoneNumber] is a total function of
    its argument alone. *)
Theorem normalize_idempotent_digits (x : string) :
  normalizePhoneNumber (normalizePhoneNumber x) = normalizePhoneNumber x
  /\ Str.forallb is_digit (normalizePhoneNumber x) = true
  /\ normalizePhoneNumber "" = "".
Proof.
  unfold normalizePhoneNumber. split; [apply filter_filter|].
  split; [apply forallb_filter | reflexivity].
Qed.

(** ** Contact directory: which keys a record writes *)

(** Goals about a lookup in a chain of assignments, by cases on the keys. *)
Ltac by_keys :=
  repeat (rewrite lookup_insert);
  repeat case_decide; simplify_eq; try done; try (exfalso; set_solver).

Lemma add_phone_lookup name (d : gmap string string) value k :
  add_phone name d value !! k
  = if decide (k ∈ phone_keys value) then Some name else d !! k.
Proof.
  unfold add_phone, phone_keys.
  set (n := normalizePhoneNumber (unescape (Str.trim value))).
  destruct (negb (Str.is_empty n) && (10 <=? String.length n)%nat); [|by_keys].
  destruct (10 <? String.length n)%nat;
    destruct ((String.length n =? 11)%nat && Str.starts_with_char "1"%char n);
    simpl; by_keys.
Qed.

Lemma add_phones_lookup name values (d : gmap string string) k :
  foldl (add_phone name) d values !! k
  = if decide (k ∈ flat_map phone_keys values) then Some name else d !! k.
Proof.
  revert d; induction values as [|v vs IH]; intros d; simpl; [by_keys|].
  rewrite IH, add_phone_lookup. by_keys.
Qed.

Lemma add_contact_lookup (d : gmap string string) contact k :
  add_contact d contact !! k
  = if decide (k ∈ contact_keys contact) then Some (display_name contact) else d !! k.
Proof.
  unfold add_contact, contact_keys.
  destruct (Str.is_empty (Str.trim contact)); [by_keys|].
  destruct (Str.is_empty (display_name contact)); [by_keys|].
  apply add_phones_lookup.
Qed.

Lemma add_contacts_untouched contacts (d : gmap string string) k :
  (forall c, c ∈ contacts -> k ∉ contact_keys c) ->
  foldl add_contact d contacts !! k = d !! k.
Proof.
  revert d; induction contacts as [|c cs IH]; intros d H; simpl; [done|].
  rewrite IH by (intros; apply H; set_solver).
  rewrite add_contact_lookup, decide_False; [done|].
  apply H; set_solver.
Qed.

(** ** Contact directory: which writer wins *)

(** Two records with the same number: after the first one the key is mapped
    to Alice, after both to Bob. *)
Lemma first_writer_wins_refuted : ~ first_writer_wins.
Proof.
  intros H.
  specialize (H alice_then_bob
    (firstn 2 (contacts_of alice_then_bob)) (skipn 2 (contacts_of alice_then_bob))
    "5551234567" "Alice").
  rewrite firstn_skipn in H.
  specialize (H eq_refl).
  assert (foldl add_contact ∅ (firstn 2 (contacts_of alice_then_bob)) !! "5551234567"
          = Some "Alice") as H1 by (vm_compute; reflexivity).
  specialize (H H1).
  assert (parseVCard alice_then_bob !! "5551234567" = Some "Bob") as H2
    by (vm_compute; reflexivity).
  congruence.
Qed.

(** C1, as the code has it. The directory is built by unconditional
    assignment: for every address-book text and every key, the directory holds
    the display name of the last record that writes the key, whatever earlier
    records wrote. *)
Theorem last_writer_wins (text : string) (before after : list string)
    (contact k : string) :
  contacts_of text = (before ++ contact :: after)%list ->
  k ∈ contact_keys contact ->
  (forall c, c ∈ after -> k ∉ contact_keys c) ->
  parseVCard text !! k = Some (display_name contact).
Proof.
  intros Hsplit Hk Hafter. unfold parseVCard. rewrite Hsplit.
  rewrite foldl_app. simpl.
  rewrite add_contacts_untouched by assumption.
  rewrite add_contact_lookup. by_keys.
Qed.

Lemma last_writer_wins_witness :
  parseVCard alice_then_bob !! "5551234567" = Some "Bob".
Proof.
  apply (last_writer_wins alice_then_bob
           (firstn 2 (contacts_of alice_then_bob)) []
           (text_of_lines [""; "FN:Bob"; "TEL:(555) 123-4567"; "END:VCARD"])
           "5551234567").
  - vm_compute. reflexivity.
  - vm_compute. apply list_elem_of_here.
  - intros c Hc. apply elem_of_nil in Hc. destruct Hc.
Defined.

(** ** Contact directory: the shape of the keys *)

(** A later record that carries the 10-digit number reassigns the suffix key
    and leaves the 11-digit key alone. *)
Lemma suffix_key_same_name_refuted : ~ suffix_key_same_name.
Proof.
  intros H.
  specialize (H alice_long_bob_short "15551234567" "Alice").
  assert (parseVCard alice_long_bob_short !! "15551234567" = Some "Alice") as H1
    by (vm_compute; reflexivity).
  specialize (H H1 eq_refl eq_refl).
  assert (parseVCard alice_long_bob_short !! Str.drop 1 "15551234567" = Some "Bob") as H2
    by (vm_compute; reflexivity).
  congruence.
Qed.

Lemma phone_keys_shape value k :
  k ∈ phone_keys value ->
  let n := normalizePhoneNumber (unescape (Str.trim value)) in
  10 <= String.length n
  /\ Str.forallb is_digit k = true
  /\ (k = n \/ (String.length k = 10 /\ 10 < String.length n)
      \/ (String.length k = 10 /\ String.length n = 11)).
Proof.
  intros Hk n. unfold phone_keys in Hk. fold n in Hk.
  assert (Str.forallb is_digit n = true) as Hd by apply forallb_filter.
  destruct (negb (Str.is_empty n) && (10 <=? String.length n)%nat) eqn:E;
    [|set_solver].
  apply andb_true_iff in E as [_ E%Nat.leb_le].
  split; [done|].
  apply elem_of_cons in Hk as [->|Hk]; [by auto|].
  apply elem_of_app in Hk as [Hk|Hk].
  - destruct (10 <? String.length n)%nat eqn:E1; [|set_solver].
    apply Nat.ltb_lt in E1.
    apply list_elem_of_singleton in Hk as ->.
    split; [by apply forallb_drop|].
    right; left. split; [apply length_slice_last|]; lia.
  - destruct ((String.length n =? 11)%nat && Str.starts_with_char "1"%char n) eqn:E1;
      [|set_solver].
    apply andb_true_iff in E1 as [E1%Nat.eqb_eq _].
    apply list_elem_of_singleton in Hk as ->.
    split; [by apply forallb_drop|].
    right; right. rewrite length_drop. lia.
Qed.

Lemma phone_keys_suffix value :
  let n := normalizePhoneNumber (unescape (Str.trim value)) in
  String.length n = 11 -> Str.starts_with_char "1"%char n = true ->
  n ∈ phone_keys value /\ Str.drop 1 n ∈ phone_keys value.
Proof.
  intros n Hlen H1. unfold phone_keys. fold n. rewrite Hlen, H1.
  destruct n; [done|]. simpl. set_solver.
Qed.

Lemma add_phone_well_formed name d value :
  keys_well_formed d -> keys_well_formed (add_phone name d value).
Proof.
  intros Hd k n. rewrite add_phone_lookup. case_decide as Hk.
  - intros _. destruct (phone_keys_shape _ _ Hk) as (Hn & Hdig & Hcase).
    split_and!; [destruct Hcase as [->|[[-> _]|[-> _]]]; lia | done |].
    intros Hlen Hone.
    destruct Hcase as [->|[[? _]|[? _]]]; [|lia..].
    destruct (phone_keys_suffix value Hlen Hone) as [_ Hs].
    rewrite add_phone_lookup, decide_True by done. eauto.
  - intros Hkn. destruct (Hd _ _ Hkn) as (? & ? & Hs).
    split_and!; [done..|].
    intros Hlen Hone. rewrite add_phone_lookup.
    case_decide; [eauto|auto].
Qed.

Lemma add_contact_well_formed d contact :
  keys_well_formed d -> keys_well_formed (add_contact d contact).
Proof.
  unfold add_contact.
  destruct (Str.is_empty (Str.trim contact)); [done|].
  destruct (Str.is_empty (display_name contact)); [done|].
  generalize (telMatches contact) as values. intros values; revert d.
  induction values as [|v vs IH]; intros d Hd; simpl; [done|].
  apply IH, add_phone_well_formed, Hd.
Qed.

Lemma parseVCard_well_formed text : keys_well_formed (parseVCard text).
Proof.
  unfold parseVCard.
  assert (keys_well_formed (∅ : gmap string string)) as H0
    by (intros k n Hk; by rewrite lookup_empty in Hk).
  revert H0. generalize (∅ : gmap string string) as d.
  induction (contacts_of text) as [|c cs IH]; intros d Hd; simpl; [done|].
  apply IH, add_contact_well_formed, Hd.
Qed.

Lemma jane_contacts : contacts_of jane = [""; jane_record].
Proof. vm_compute. reflexivity. Qed.

Lemma jane_keys :
  contact_keys jane_record = ["15551234567"; "5551234567"; "5551234567"].
Proof. vm_compute. reflexivity. Qed.

(** C6, as the code has it. For every address-book text, every key of the
    directory has at least 10 digits and digits only, and for every key of
    length 11 that starts with 1 the directory also contains the 10-digit
    suffix key; a telephone value whose normalized key is shorter than 10
    digits writes nothing; a value whose key has 11 digits and starts with 1
    assigns the key and its suffix to the same name at that step; and the
    Jane Doe text yields exactly the keys 15551234567 and 5551234567, both
    mapped to Jane Doe. *)
Theorem directory_keys :
  (forall text k n,
     parseVCard text !! k = Some n ->
     10 <= String.length k
     /\ Str.forallb is_digit k = true
     /\ (String.length k = 11 -> Str.starts_with_char "1"%char k = true ->
         is_Some (parseVCard text !! Str.drop 1 k)))
  /\ (forall name (d : gmap string string) value,
        String.length (normalizePhoneNumber (unescape (Str.trim value))) < 10 ->
        add_phone name d value = d)
  /\ (forall name (d : gmap string string) value,
        let key := normalizePhoneNumber (unescape (Str.trim value)) in
        String.length key = 11 -> Str.starts_with_char "1"%char key = true ->
        add_phone name d value !! key = Some name
        /\ add_phone name d value !! Str.drop 1 key = Some name)
  /\ parseVCard jane
     = <["15551234567" := "Jane Doe"]> (<["5551234567" := "Jane Doe"]> ∅).
Proof.
  split_and!.
  - intros text. apply parseVCard_well_formed.
  - intros name d value Hlt. unfold add_phone.
    apply Nat.leb_gt in Hlt. rewrite Hlt, andb_false_r. done.
  - intros name d value key Hlen Hone.
    destruct (phone_keys_suffix value Hlen Hone) as [H1 H2].
    rewrite !add_phone_lookup, !decide_True by done. done.
  - apply map_eq. intros k. unfold parseVCard. rewrite jane_contacts. simpl.
    rewrite !add_contact_lookup, jane_keys.
    change (contact_keys "") with (@nil string).
    change (display_name jane_record) with "Jane Doe".
    by_keys.
Qed.

Lemma directory_keys_witness :
  10 <= String.length "15551234567"
  /\ is_Some (parseVCard jane !! Str.drop 1 "15551234567").
Proof.
  destruct (proj1 directory_keys jane "15551234567" "Jane Doe") as (H1 & _ & H3).
  - vm_compute. reflexivity.
  - split; [exact H1 | apply H3; reflexivity].
Defined.

(** ** Searching a chunk *)

Module ScanFacts.

Lemma after_first_none pat s :
  occurs pat s = false -> Str.after_first pat s = None.
Proof.
  induction s as [|c t IH]; simpl.
  - destruct (Str.matches_at pat ""); [discriminate|done].
  - destruct (Str.matches_at pat (String c t)); [discriminate|]. simpl. exact IH.
Qed.

Lemma after_first_app pat pre post :
  none_before pat pre post = true ->
  Str.matches_at pat post = true ->
  Str.after_first pat (pre ++ post) = Some (Str.drop (List.length pat) post).
Proof.
  intros Hpre Hpost. induction pre as [|c t IH].
  - destruct post; simpl; rewrite Hpost; done.
  - cbn [none_before] in Hpre. apply andb_true_iff in Hpre as [Hc Ht].
    apply negb_true_iff in Hc.
    change (String c t ++ post) with (String c (t ++ post)) in *.
    cbn [Str.after_first]. rewrite Hc. auto.
Qed.

Lemma take_line_app v rest :
  no_line_feed v = true -> at_line_end rest = true ->
  Str.take_line (v ++ rest) = v.
Proof.
  unfold no_line_feed, none_of. intros Hv Hrest.
  induction v as [|c t IH]; simpl in *.
  - destruct rest as [|c r]; simpl in *; [done|]. by rewrite Hrest.
  - apply andb_true_iff in Hv as [Hc Ht].
    rewrite orb_false_r in Hc. apply negb_true_iff in Hc.
    rewrite Hc, IH; done.
Qed.

Section LineInitial.

Variable p : cls.

Lemma split_char_cons a s :
  exists (h : string) (r : list string), Str.split_char a s = h :: r.
Proof.
  destruct s as [|c t]; simpl; [eauto|].
  destruct (Ascii.eqb c a); [eauto|].
  destruct (Str.split_char a t); eauto.
Qed.

Lemma lines_ahead_step (b : bool) c t :
  existsb (starts_with p) (lines_ahead b (String c t)) = false ->
  p LF = false ->
  b && p c = false
  /\ existsb (starts_with p) (lines_ahead (Ascii.eqb c LF) t) = false.
Proof.
  unfold lines_ahead. simpl. intros H HLF.
  destruct (Ascii.eqb c LF) eqn:Ec.
  - apply Ascii.eqb_eq in Ec as ->. rewrite HLF, andb_false_r.
    destruct b; simpl in H; done.
  - destruct (split_char_cons LF t) as (h & r & Hs). rewrite Hs in *.
    destruct b; simpl in *; [|done].
    apply orb_false_iff in H as [-> H]. done.
Qed.

Lemma after_line_initial_none s :
  p LF = false ->
  has_line_starting p s = false -> after_line_initial p true s = None.
Proof.
  unfold has_line_starting. intros HLF.
  change (Str.split_char LF s) with (lines_ahead true s).
  generalize true as b. induction s as [|c t IH]; intros b Hb; [done|].
  destruct (lines_ahead_step b c t Hb HLF) as [Hc Ht].
  cbn [after_line_initial]. rewrite Hc. auto.
Qed.

Lemma after_line_initial_app_gen pre post (b : bool) :
  p LF = false ->
  existsb (starts_with p) (lines_ahead b pre) = false ->
  (pre = "" -> b = true) ->
  ends_line pre = true ->
  starts_with p post = true ->
  after_line_initial p b (pre ++ post) = Some (Str.drop 1 post).
Proof.
  intros HLF Hpre Hb Hend Hpost. revert b Hpre Hb.
  induction pre as [|c t IH]; intros b Hpre Hb.
  - rewrite Hb by done. destruct post as [|c t]; [done|].
    simpl in *. by rewrite Hpost.
  - destruct (lines_ahead_step b c t Hpre HLF) as [Hc Ht].
    change (String c t ++ post) with (String c (t ++ post)).
    cbn [after_line_initial]. rewrite Hc.
    apply IH; [|done|].
    + destruct t; [done|exact Hend].
    + intros ->. exact Hend.
Qed.

Lemma after_line_initial_app pre post :
  p LF = false ->
  has_line_starting p pre = false ->
  ends_line pre = true ->
  starts_with p post = true ->
  after_line_initial p true (pre ++ post) = Some (Str.drop 1 post).
Proof. intros. by apply after_line_initial_app_gen. Qed.

End LineInitial.

End ScanFacts.
Import ScanFacts.

(** ** Trimming and unescaping *)

Module TrimFacts.

Lemma trim_start_head s c t :
  Str.trim_start s = String c t -> is_space c = false.
Proof.
  induction s as [|a s IH]; simpl; [discriminate|].
  destruct (is_space a) eqn:E; [exact IH|]. congruence.
Qed.

Lemma trim_end_head s c t :
  Str.trim_end s = String c t -> exists t', s = String c t'.
Proof.
  destruct s as [|a s]; simpl; [discriminate|].
  destruct (is_space a && Str.is_empty (Str.trim_end s)); [discriminate|].
  intros [= -> _]. eauto.
Qed.

Lemma trim_head s c t : Str.trim s = String c t -> is_space c = false.
Proof.
  unfold Str.trim. intros H.
  destruct (trim_end_head _ _ _ H) as [t' Ht'].
  eapply trim_start_head, Ht'.
Qed.

Lemma trim_end_idem s : Str.trim_end (Str.trim_end s) = Str.trim_end s.
Proof.
  induction s as [|c s IH]; simpl; [done|].
  destruct (is_space c && Str.is_empty (Str.trim_end s)) eqn:E; [done|].
  simpl. rewrite IH, E. done.
Qed.

Lemma trim_end_app x b :
  Str.trim_end b = b -> b <> "" -> Str.trim_end (x ++ b) = x ++ b.
Proof.
  intros Hb Hne. induction x as [|c x IH]; [exact Hb|].
  change (String c x ++ b) with (String c (x ++ b)).
  cbn [Str.trim_end]. rewrite IH.
  destruct (x ++ b) eqn:E; [|by rewrite andb_false_r].
  destruct x; [change (b = "") in E; congruence | discriminate].
Qed.

Lemma trim_start_fixed c t :
  is_space c = false -> Str.trim_start (String c t) = String c t.
Proof. intros H. simpl. by rewrite H. Qed.

Lemma trim_trim s : Str.trim (Str.trim s) = Str.trim s.
Proof.
  destruct (Str.trim s) as [|c t] eqn:E; [done|].
  pose proof (trim_head _ _ _ E) as Hc.
  unfold Str.trim at 1. rewrite trim_start_fixed by done.
  rewrite <- E. unfold Str.trim. apply trim_end_idem.
Qed.

Lemma trim_end_trim s : Str.trim_end (Str.trim s) = Str.trim s.
Proof. unfold Str.trim. apply trim_end_idem. Qed.

(** Two trimmed, non-empty words joined by a space are a trimmed text. *)
Lemma trim_pair a0 b0 :
  Str.trim a0 <> "" -> Str.trim b0 <> "" ->
  Str.trim (Str.trim a0 ++ " " ++ Str.trim b0) = Str.trim a0 ++ " " ++ Str.trim b0.
Proof.
  intros Ha Hb.
  destruct (Str.trim a0) as [|c t] eqn:E; [done|].
  pose proof (trim_head _ _ _ E) as Hc.
  unfold Str.trim at 1.
  change (String c t ++ " " ++ Str.trim b0)
    with (String c (t ++ " " ++ Str.trim b0)).
  rewrite trim_start_fixed by done.
  change (String c (t ++ " " ++ Str.trim b0))
    with (String c t ++ " " ++ Str.trim b0).
  rewrite app_assoc, trim_end_app; [done | apply trim_end_trim | done].
Qed.

(** A global replacement whose pattern begins with a character that does not
    occur leaves the text as it is. *)
Lemma replace_all_absent (a : ascii) pat rep s :
  Str.forallb (none_of [a]) s = true ->
  Str.replace_all (lit a :: pat) rep s = s.
Proof.
  unfold Str.replace_all, none_of, lit. induction s as [|c t IH]; [done|].
  simpl. rewrite orb_false_r. intros [Hc Ht]%andb_true_iff.
  apply negb_true_iff in Hc. rewrite Hc. simpl. f_equal. auto.
Qed.

Lemma unescape_plain s :
  Str.forallb (none_of [BSL]) s = true -> unescape s = s.
Proof.
  intros H. unfold unescape. cbv zeta.
  do 4 rewrite (replace_all_absent BSL _ _ s H). done.
Qed.

End TrimFacts.
Import TrimFacts.

(** ** The structured name *)

Lemma name_of_N_given_family value family given others :
  components value = family :: given :: others ->
  family <> "" -> given <> "" ->
  name_of_N value = given ++ " " ++ family.
Proof.
  unfold components, name_of_N. intros Hc Hf Hg. rewrite Hc.
  destruct (List.map_eq_cons _ _ Hc) as (f0 & l1 & _ & Hf0 & Hl1).
  destruct (List.map_eq_cons _ _ Hl1) as (g0 & l2 & _ & Hg0 & _).
  subst family given.
  cbn [List.filter].
  apply is_empty_false in Hf as Hf'. apply is_empty_false in Hg as Hg'.
  rewrite Hf', Hg'. cbn [negb nth List.filter]. rewrite Hf', Hg'.
  cbn [negb Str.join]. rewrite trim_pair by done.
  destruct (Str.trim g0 ++ " " ++ Str.trim f0) eqn:E; [|done].
  destruct (Str.trim g0); [done | discriminate].
Qed.

Lemma name_of_N_single value x :
  List.filter non_empty (components value) = [x] ->
  name_of_N value = x.
Proof.
  unfold components, name_of_N. intros Hc.
  change (fun p => negb (Str.is_empty p)) with non_empty.
  rewrite Hc.
  assert (x ∈ List.filter non_empty
            (List.map Str.trim (Str.split_char ";"%char value))) as Hx
    by (rewrite Hc; set_solver).
  apply list_elem_of_In, List.filter_In in Hx as [Hin Hne].
  apply List.in_map_iff in Hin as (x0 & <- & _).
  cbn [nth List.filter]. rewrite Hne.
  change (non_empty "") with false. cbn [Str.join].
  rewrite trim_trim.
  unfold non_empty in Hne. apply negb_true_iff in Hne. by rewrite Hne.
Qed.

(** ** The display name of a record *)

Lemma fnMatch_first pre rest (f n : ascii) :
  lit_ci "F"%char f = true -> lit_ci "N"%char n = true ->
  none_before (Str.lits_ci "FN") pre (String f (String n rest)) = true ->
  fnMatch (pre ++ String f (String n rest)) = Some (field_value rest).
Proof.
  intros Hf Hn Hpre. unfold fnMatch.
  rewrite (after_first_app _ _ _ Hpre); [done|].
  simpl. by rewrite Hf, Hn.
Qed.

Lemma fnMatch_none contact :
  occurs (Str.lits_ci "FN") contact = false -> fnMatch contact = None.
Proof. intros H. unfold fnMatch. by rewrite after_first_none. Qed.

Lemma nMatch_first pre rest :
  has_line_starting (lit_ci "N"%char) pre = false ->
  ends_line pre = true ->
  nMatch (pre ++ String "N"%char rest) = Some (field_value rest).
Proof.
  intros Hpre Hend. unfold nMatch.
  by rewrite after_line_initial_app.
Qed.

Lemma nMatch_none contact :
  has_line_starting (lit_ci "N"%char) contact = false -> nMatch contact = None.
Proof. intros H. unfold nMatch. by rewrite after_line_initial_none. Qed.

Lemma field_value_colon v rest :
  no_line_feed v = true -> at_line_end rest = true ->
  field_value (String ":"%char (v ++ rest)) = v.
Proof. intros. simpl. by apply take_line_app. Qed.

Example escaped_line_break_name : display_name escaped_line_break = "Jane Doe".
Proof. vm_compute. reflexivity. Qed.

(** Two records on which the two readings fail.  In the full name
    [Jane\nDoe] the escaped n becomes a space, by the third replacement of
    the unescape chain, not a line feed.  And a record with a note and a
    telephone number, but no name field, still gets a name: the note line
    begins with N, and its remainder is taken for the name. *)
Lemma display_name_readings_refuted :
  ~ full_name_unescaped /\ ~ nameless_adds_nothing.
Proof.
  split.
  - intros H.
    specialize (H (String LF "") "Jane\nDoe"
                  (text_of_lines [""; "TEL:555-123-4567"; "END:VCARD"])).
    assert (unescape_as_specified (Str.trim "Jane\nDoe") <> "") as Hne
      by (vm_compute; discriminate).
    specialize (H eq_refl eq_refl eq_refl eq_refl Hne).
    vm_compute in H. discriminate.
  - intros H.
    assert (parseVCard note_only !! "5551234567" = Some "OTE:call me") as H1
      by (vm_compute; reflexivity).
    unfold parseVCard in H1.
    replace (contacts_of note_only)
      with [""; text_of_lines [""; "NOTE:call me"; "TEL:555-123-4567"; "END:VCARD"]]
      in H1 by (vm_compute; reflexivity).
    simpl in H1. rewrite (H (add_contact ∅ "")) in H1 by (vm_compute; reflexivity).
    rewrite add_contact_lookup in H1. by_keys.
Qed.

(** C5, as the code has it. For every record chunk:
    - when the first occurrence of FN in the chunk begins a line and reads
      FN, colon, value, the display name is the value, trimmed, with
      backslash-comma, backslash-semicolon and double backslash unescaped and
      backslash-n turned into a space, provided that text is not empty;
    - when FN occurs nowhere in the chunk and the first line that begins with
      N reads N, colon, value, and the components of the value (split at
      semicolons, trimmed) start with a non-empty family and a non-empty
      given name, the display name is given, space, family; when exactly one
      component is non-empty, the display name is that component;
    - a chunk in which FN occurs nowhere and no line begins with N adds
      nothing to the directory;
    - unescaping leaves a text without backslash unchanged. *)
Theorem display_name_rules :
  (forall pre v rest,
     none_before (Str.lits_ci "FN") pre ("FN:" ++ v ++ rest) = true ->
     ends_line pre = true ->
     no_line_feed v = true -> at_line_end rest = true ->
     unescape (Str.trim v) <> "" ->
     display_name (pre ++ "FN:" ++ v ++ rest) = unescape (Str.trim v))
  /\ (forall pre v rest family given others,
        occurs (Str.lits_ci "FN") (pre ++ "N:" ++ v ++ rest) = false ->
        has_line_starting (lit_ci "N"%char) pre = false ->
        ends_line pre = true ->
        no_line_feed v = true -> at_line_end rest = true ->
        components v = family :: given :: others ->
        family <> "" -> given <> "" ->
        display_name (pre ++ "N:" ++ v ++ rest) = given ++ " " ++ family)
  /\ (forall pre v rest x,
        occurs (Str.lits_ci "FN") (pre ++ "N:" ++ v ++ rest) = false ->
        has_line_starting (lit_ci "N"%char) pre = false ->
        ends_line pre = true ->
        no_line_feed v = true -> at_line_end rest = true ->
        List.filter non_empty (components v) = [x] ->
        display_name (pre ++ "N:" ++ v ++ rest) = x)
  /\ (forall (d : gmap string string) contact,
        occurs (Str.lits_ci "FN") contact = false ->
        has_line_starting (lit_ci "N"%char) contact = false ->
        add_contact d contact = d)
  /\ (forall s, Str.forallb (none_of [BSL]) s = true -> unescape s = s)
  /\ (unescape "a\,b" = "a,b" /\ unescape "a\;b" = "a;b"
      /\ unescape "a\nb" = "a b" /\ unescape "a\\b" = "a\b").
Proof.
  split_and!.
  - intros pre v rest Hpre _ Hv Hrest Hne. unfold display_name.
    change ("FN:" ++ v ++ rest)
      with (String "F" (String "N" (String ":" (v ++ rest)))) in *.
    rewrite (fnMatch_first pre _ "F"%char "N"%char eq_refl eq_refl Hpre).
    rewrite field_value_colon by done.
    apply is_empty_false in Hne. by rewrite Hne.
  - intros pre v rest family given others Hfn Hpre Hend Hv Hrest Hc Hf Hg.
    unfold display_name. rewrite (fnMatch_none _ Hfn). cbn [Str.is_empty].
    change ("N:" ++ v ++ rest) with (String "N" (String ":" (v ++ rest))).
    rewrite (nMatch_first _ _ Hpre Hend), field_value_colon by done.
    by eapply name_of_N_given_family.
  - intros pre v rest x Hfn Hpre Hend Hv Hrest Hc.
    unfold display_name. rewrite (fnMatch_none _ Hfn). cbn [Str.is_empty].
    change ("N:" ++ v ++ rest) with (String "N" (String ":" (v ++ rest))).
    rewrite (nMatch_first _ _ Hpre Hend), field_value_colon by done.
    by apply name_of_N_single.
  - intros d contact Hfn Hn. unfold add_contact, display_name.
    rewrite (fnMatch_none _ Hfn), (nMatch_none _ Hn). cbn [Str.is_empty].
    by destruct (Str.is_empty (Str.trim contact)).
  - apply unescape_plain.
  - vm_compute; reflexivity.
  - vm_compute; reflexivity.
  - vm_compute; reflexivity.
  - vm_compute; reflexivity.
Qed.

Lemma display_name_rules_witness :
  display_name jane_record = "Jane Doe"
  /\ display_name (text_of_lines [""; "N:Doe;Jane;;;"; "TEL:555-123-4567"]) = "Jane Doe"
  /\ display_name (text_of_lines [""; "N:;Jane;;;"; "TEL:555-123-4567"]) = "Jane"
  /\ add_contact ∅ (text_of_lines [""; "TEL:555-123-4567"; "END:VCARD"]) = ∅.
Proof.
  destruct display_name_rules as (H1 & H2 & H3 & H4 & _).
  split_and!.
  - apply (H1 (String LF "") "Jane Doe"
             (text_of_lines [""; "TEL:+1 (555) 123-4567"; "END:VCARD"]));
      vm_compute; (reflexivity || discriminate).
  - apply (H2 (String LF "") "Doe;Jane;;;"
             (text_of_lines [""; "TEL:555-123-4567"]) "Doe" "Jane" [""; ""; ""]);
      vm_compute; (reflexivity || discriminate).
  - apply (H3 (String LF "") ";Jane;;;"
             (text_of_lines [""; "TEL:555-123-4567"]) "Jane");
      vm_compute; reflexivity.
  - apply H4; vm_compute; reflexivity.
Defined.

(** ** The full-name pattern is not anchored *)

(** C10. The full-name match is not anchored to the start of a line: wherever
    the first occurrence of the letters FN (in any case) stands in a chunk, the
    match yields the rest of that line, after one optional colon or semicolon;
    and there is a record with no line that begins with FN, whose only FN is
    in the middle of the family name of its structured-name field, from which
    a display name is derived all the same and entered into the directory. *)
Theorem full_name_match_unanchored :
  (forall pre rest (f n : ascii),
     lit_ci "F"%char f = true -> lit_ci "N"%char n = true ->
     none_before (Str.lits_ci "FN") pre (String f (String n rest)) = true ->
     fnMatch (pre ++ String f (String n rest)) = Some (field_value rest)
     /\ (unescape (Str.trim (field_value rest)) <> "" ->
         display_name (pre ++ String f (String n rest))
         = unescape (Str.trim (field_value rest))))
  /\ (has_line_matching (Str.lits_ci "FN") hoffnung_record = false
      /\ display_name hoffnung_record = "ung;Eva"
      /\ parseVCard ("BEGIN:VCARD" ++ hoffnung_record) !! "5551234567"
         = Some "ung;Eva").
Proof.
  split.
  - intros pre rest f n Hf Hn Hpre.
    pose proof (fnMatch_first pre rest f n Hf Hn Hpre) as Hm.
    split; [exact Hm|]. intros Hne. unfold display_name. rewrite Hm.
    apply is_empty_false in Hne. by rewrite Hne.
  - split_and!; vm_compute; reflexivity.
Qed.

Lemma full_name_match_unanchored_witness :
  fnMatch hoffnung_record = Some "ung;Eva".
Proof.
  apply (proj1 full_name_match_unanchored
           (String LF "N:Hof")
           (text_of_lines ["ung;Eva"; "TEL:555-123-4567"; "END:VCARD"])
           "f"%char "n"%char);
    vm_compute; reflexivity.
Defined.

(** ** The handler: what a response is made of *)

Lemma read_contacts_result cf w :
  fst (read_contacts cf w) = Returned (directory_of cf)
  /\ tz (snd (read_contacts cf w)) = tz w
  /\ wasm_missing (snd (read_contacts cf w)) = wasm_missing w
  /\ open_databases (snd (read_contacts cf w)) = open_databases w.
Proof. destruct cf as [[t|e]|]; done. Qed.

Lemma POST_returns request w : exists r, fst (POST request w) = Returned r.
Proof.
  unfold POST, try_catch.
  match goal with
  | |- context [match ?m w with _ => _ end] => destruct (m w) as [[r|e] w']
  end; simpl; eauto.
Qed.

Lemma POST_success w s cf :
  wasm_missing w = None ->
  fst (POST {| file := Some (Db s); contactsFile := cf |} w)
  = Returned (Json (analysis w s cf)).
Proof.
  intros Hw. unfold POST, try_catch, bind. cbn [file contactsFile].
  destruct (read_contacts_result cf w) as (Hr & Htz & Hwasm & _).
  destruct (read_contacts cf w) as [r w1]. simpl in Hr, Htz, Hwasm. subst r.
  unfold initSqlJs. rewrite Hwasm, Hw. simpl. unfold analysis. by rewrite Htz.
Qed.

Lemma POST_Json_inv request w body :
  fst (POST request w) = Returned (Json body) ->
  exists s, file request = Some (Db s)
            /\ wasm_missing w = None
            /\ body = analysis w s (contactsFile request).
Proof.
  destruct request as [[[s|e]|] cf]; unfold POST, try_catch, bind;
    cbn [file contactsFile].
  - destruct (wasm_missing w) as [e|] eqn:Hw.
    + destruct (read_contacts_result cf w) as (Hr & _ & Hwasm & _).
      destruct (read_contacts cf w) as [r w1]. simpl in Hr, Hwasm. subst r.
      unfold initSqlJs. rewrite Hwasm, Hw. simpl. discriminate.
    + pose proof (POST_success w s cf Hw) as H.
      unfold POST, try_catch, bind in H. cbn [file contactsFile] in H.
      rewrite H. intros [= <-]. eauto.
  - destruct (read_contacts_result cf w) as (Hr & _ & Hwasm & _).
    destruct (read_contacts cf w) as [r w1]. simpl in Hr, Hwasm. subst r.
    unfold initSqlJs. destruct (wasm_missing w1); simpl; discriminate.
  - simpl. discriminate.
Qed.

Lemma getContactName_empty phoneNumber : getContactName ∅ phoneNumber = None.
Proof.
  destruct phoneNumber as [p|]; [|done]. unfold getContactName.
  destruct (Str.is_empty p); [done|]. by rewrite !lookup_empty.
Qed.

(** ** Contact failures are absorbed *)

(** C7. Whatever the contacts upload is (any text, or a file whose reading
    fails), the handler returns a response and never throws; the request
    succeeds exactly when the same request without contacts succeeds; and when
    reading the contacts fails, the response is the one of the request
    without contacts: the directory is empty and every contactName of the
    result is absent. *)
Theorem contact_failure_absorbed (w : World) (f : db_file) :
  (forall cf, exists r, fst (POST {| file := Some f; contactsFile := cf |} w) = Returned r)
  /\ (forall cf,
        succeeds (fst (POST {| file := Some f; contactsFile := cf |} w))
        <-> succeeds (fst (POST {| file := Some f; contactsFile := None |} w)))
  /\ (forall e,
        directory_of (Some (Unreadable e)) = ∅
        /\ fst (POST {| file := Some f; contactsFile := Some (Unreadable e) |} w)
           = fst (POST {| file := Some f; contactsFile := None |} w)
        /\ forall body,
             fst (POST {| file := Some f; contactsFile := Some (Unreadable e) |} w)
             = Returned (Json body) ->
             Forall (fun m => Message.contactName m = None) (messages body)
             /\ Forall (fun c => Contact.contactName c = None) (contacts body)).
Proof.
  split_and!.
  - intros cf. apply POST_returns.
  - intros cf. unfold succeeds. split; intros [body H];
      apply POST_Json_inv in H as (s & [= ->] & Hw & _);
      rewrite POST_success by done; eauto.
  - intros e. split; [done|]. split.
    + destruct f as [s|msg]; unfold POST, try_catch, bind, initSqlJs; simpl;
        destruct (wasm_missing w); simpl; done.
    + intros body H. apply POST_Json_inv in H as (s & _ & _ & ->).
      unfold analysis, assemble. cbn [messages contacts directory_of contactsFile].
      split.
      * apply Forall_take, List.Forall_map, Forall_forall. intros m _.
        apply getContactName_empty.
      * apply List.Forall_map, Forall_forall. intros c _.
        apply getContactName_empty.
Qed.

Lemma contact_failure_absorbed_witness :
  Forall (fun m => Message.contactName m = None)
    (messages (analysis quiet_world two_messages (Some (Unreadable "read error")))).
Proof.
  destruct (contact_failure_absorbed quiet_world (Db two_messages)) as (_ & _ & H).
  destruct (H "read error") as (_ & _ & Hbody).
  apply (Hbody (analysis quiet_world two_messages (Some (Unreadable "read error")))).
  reflexivity.
Defined.

(** ** Facts about the queries *)

Module SqlFacts.

Lemma filter_perm {A} (f : A -> bool) (l l' : list A) :
  l ≡ₚ l' -> List.filter f l ≡ₚ List.filter f l'.
Proof.
  induction 1 as [|x l l' _ IH|x y l|l l' l'' _ IH1 _ IH2]; simpl.
  - done.
  - destruct (f x); [by constructor|done].
  - destruct (f x), (f y); try done. apply perm_swap.
  - by etrans.
Qed.

Lemma count_perm {A} (f : A -> bool) (l l' : list A) :
  l ≡ₚ l' -> List.length (List.filter f l) = List.length (List.filter f l').
Proof. intros H. apply Permutation_length, filter_perm, H. Qed.

Lemma order_by_perm {A} (R : relation A) `{!RelDecision R} (rows : list A) :
  order_by R rows ≡ₚ rows.
Proof. apply merge_sort_Permutation. Qed.

(** A join whose condition selects at most one right row for every left row
    is a lookup. *)
Lemma left_join_functional {A B} (on : A -> B -> bool) (l : list A) (r : list B) :
  (forall a, List.length (List.filter (on a) r) <= 1) ->
  left_join on l r = List.map (fun a => (a, head (List.filter (on a) r))) l.
Proof.
  intros Hone. unfold left_join. induction l as [|a l IH]; [done|].
  change (flat_map ?f (a :: l)) with (f a ++ flat_map f l)%list.
  rewrite IH. specialize (Hone a). cbn [List.map].
  destruct (List.filter (on a) r) as [|b [|b' bs]]; simpl in *; [done..|lia].
Qed.

Lemma filter_key_absent {B} (key : B -> Z) (x : Z) (r : list B) :
  x ∉ List.map key r -> List.filter (fun b => (x =? key b)%Z) r = [].
Proof.
  induction r as [|b r IH]; simpl; [done|]. intros Hx.
  destruct (Z.eqb_spec x (key b)) as [->|_]; [set_solver|].
  apply IH. set_solver.
Qed.

Lemma filter_key_unique {B} (key : B -> Z) (x : Z) (r : list B) :
  NoDup (List.map key r) ->
  List.length (List.filter (fun b => (x =? key b)%Z) r) <= 1.
Proof.
  induction r as [|b r IH]; simpl; [lia|].
  intros [Hb Hr]%NoDup_cons.
  destruct (Z.eqb_spec x (key b)) as [->|_]; [|auto].
  rewrite filter_key_absent by done. simpl. lia.
Qed.

Lemma filter_none {B} (r : list B) : List.filter (fun _ => false) r = [].
Proof. by induction r. Qed.

Lemma messages_from_unique (s : Store) :
  keys_unique s -> messages_from s = List.map (row_of s) (message s).
Proof.
  intros (Hh & Hc & Hj). unfold messages_from.
  rewrite (left_join_functional _ (message s)) by (intros m; by apply filter_key_unique).
  rewrite (left_join_functional _ _ (chat_message_join s))
    by (intros [m h]; by apply filter_key_unique).
  rewrite left_join_functional.
  - rewrite !List.map_map. apply List.map_ext. intros m.
    unfold row_of. fold (handle_of s m). fold (join_of s m).
    f_equal. destruct (join_of s m) as [j|]; simpl; [done|].
    by rewrite filter_none.
  - intros [[m h] [j|]]; [by apply filter_key_unique|].
    rewrite filter_none. simpl. lia.
Qed.

Lemma messagesQuery_perm (tz : Z -> Z) (s : Store) :
  keys_unique s ->
  messagesQuery tz s
  ≡ₚ List.map (fun m => messages_select tz (row_of s m)) (message s).
Proof.
  intros Hk. unfold messagesQuery. rewrite order_by_perm.
  by rewrite messages_from_unique, List.map_map.
Qed.

Lemma messagesQuery_length (tz : Z -> Z) (s : Store) :
  keys_unique s -> List.length (messagesQuery tz s) = List.length (message s).
Proof.
  intros Hk. rewrite (Permutation_length (messagesQuery_perm tz s Hk)).
  apply List.length_map.
Qed.

Lemma filter_map {A B} (f : A -> B) (p : B -> bool) (l : list A) :
  List.filter p (List.map f l) = List.map f (List.filter (fun a => p (f a)) l).
Proof.
  induction l as [|a l IH]; simpl; [done|].
  destruct (p (f a)); simpl; by rewrite IH.
Qed.

(** Counting result rows by a property of the message is counting messages. *)
Lemma messagesQuery_count (tz : Z -> Z) (s : Store) (p : messages_result -> bool) :
  keys_unique s ->
  List.length (List.filter p (messagesQuery tz s))
  = List.length
      (List.filter (fun m => p (messages_select tz (row_of s m))) (message s)).
Proof.
  intros Hk. rewrite (count_perm p _ _ (messagesQuery_perm tz s Hk)).
  by rewrite filter_map, List.length_map.
Qed.

End SqlFacts.
Import SqlFacts.

(** ** The database instance (C3) *)

(** On the path that reaches [db.close()], the instance opened by the request
    is released. *)
Lemma POST_success_closes w s cf :
  wasm_missing w = None ->
  open_databases (snd (POST {| file := Some (Db s); contactsFile := cf |} w))
  = open_databases w.
Proof.
  intros Hw. unfold POST, try_catch, bind. cbn [file contactsFile].
  destruct (read_contacts_result cf w) as (Hr & _ & Hwasm & Hopen).
  destruct (read_contacts cf w) as [r w1]. simpl in Hr, Hwasm, Hopen. subst r.
  unfold initSqlJs. rewrite Hwasm, Hw. simpl. done.
Qed.

(** C3, at a failing input. A file the queries fail on: the handler opens a
    database instance, the first [db.exec] throws, the catch block answers
    with status 500, and the instance is still open afterwards, since
    [db.close()] is only on the success path. *)
Theorem failed_query_leaves_database_open :
  POST {| file := Some (NotDb "file is not a database"); contactsFile := None |}
    quiet_world
  = (Returned (JsonError 500 "file is not a database"),
     {| tz := tz quiet_world; wasm_missing := None;
        open_databases := 1;
        console := ["Error analyzing chat.db: file is not a database"] |})
  /\ open_databases
       (snd (POST {| file := Some (Db two_messages); contactsFile := None |} quiet_world))
     = 0.
Proof. split; reflexivity. Qed.

Lemma POST_failure_leaves_open w e cf :
  wasm_missing w = None ->
  open_databases (snd (POST {| file := Some (NotDb e); contactsFile := cf |} w))
  = S (open_databases w).
Proof.
  intros Hw. unfold POST, try_catch, bind. cbn [file contactsFile].
  destruct (read_contacts_result cf w) as (Hr & _ & Hwasm & Hopen).
  destruct (read_contacts cf w) as [r w1]. simpl in Hr, Hwasm, Hopen. subst r.
  unfold initSqlJs. rewrite Hwasm, Hw. simpl. by rewrite Hopen.
Qed.

(** ** Summary counts (C4) *)

Lemma left_join_fst {A B} (on : A -> B -> bool) (l : list A) (r : list B) a b :
  (a, b) ∈ left_join on l r -> a ∈ l.
Proof.
  unfold left_join. intros H%list_elem_of_In%List.in_flat_map.
  destruct H as (a' & Ha' & H). apply list_elem_of_In in Ha'.
  destruct (List.filter (on a') r) as [|b' bs].
  - apply list_elem_of_In, list_elem_of_singleton in H. by simplify_eq.
  - apply List.in_map_iff in H as (? & ? & _). by simplify_eq.
Qed.

Lemma messagesQuery_flag (tz : Z -> Z) (s : Store) (r : messages_result) :
  r ∈ messagesQuery tz s ->
  exists m, m ∈ message s /\ r_is_from_me r = m_is_from_me m.
Proof.
  unfold messagesQuery. rewrite order_by_perm.
  intros H%list_elem_of_In%List.in_map_iff.
  destruct H as ([[[m h] j] c] & <- & H%list_elem_of_In).
  exists m. split; [|done]. unfold messages_from in H.
  do 3 apply left_join_fst in H. done.
Qed.

Lemma boolean_counts (rows : list messages_result) :
  Forall (fun r => r_is_from_me r = 0%Z \/ r_is_from_me r = 1%Z) rows ->
  List.length (List.filter (fun r => (r_is_from_me r =? 0)%Z) rows)
  = List.length (List.filter (fun r => negb (r_is_from_me r =? 1)%Z) rows)
  /\ List.length (List.filter (fun r => (r_is_from_me r =? 1)%Z) rows)
     + List.length (List.filter (fun r => (r_is_from_me r =? 0)%Z) rows)
     = List.length rows.
Proof.
  induction 1 as [|r rows [Hr|Hr] _ [IH1 IH2]]; simpl; [done|..];
    rewrite Hr; simpl; lia.
Qed.

(** A message whose flag is 2 is reported with [isFromMe] false and is not
    counted as received. *)
Lemma received_is_not_from_me_refuted : ~ received_is_not_from_me.
Proof.
  intros H. specialize (H quiet_world odd_flag None _ eq_refl).
  vm_compute in H. discriminate.
Qed.

(** C4, as the code has it. For every store, totalMessages is the row count of
    the all-messages result, sentMessages the count of its rows whose flag is
    1, receivedMessages the count of its rows whose flag is 0, and
    uniqueContacts the row count of the per-handle summary; when every flag of
    the store is 0 or 1, receivedMessages is the count of the rows that are
    not from me and sent plus received is the total; and a store of two
    messages with flags 1 and 0, in which row ids are unique and no message is
    joined to more than one chat, has total 2, sent 1 and received 1. *)
Theorem summary_counts (w : World) (s : Store) (cf : option contacts_file)
    (body : AnalysisResult) :
  fst (POST {| file := Some (Db s); contactsFile := cf |} w) = Returned (Json body) ->
  let rows := messagesQuery (tz w) s in
  let total := Summary.totalMessages (summary body) in
  let sent := Summary.sentMessages (summary body) in
  let received := Summary.receivedMessages (summary body) in
  total = List.length rows
  /\ sent = List.length (List.filter (fun r => (r_is_from_me r =? 1)%Z) rows)
  /\ received = List.length (List.filter (fun r => (r_is_from_me r =? 0)%Z) rows)
  /\ Summary.uniqueContacts (summary body) = List.length (contactsQuery s)
  /\ (flags_boolean s ->
      received
      = List.length (List.filter (fun r => negb (r_is_from_me r =? 1)%Z) rows)
      /\ sent + received = total)
  /\ (forall m1 m2,
        keys_unique s -> message s = [m1; m2] ->
        m_is_from_me m1 = 1%Z -> m_is_from_me m2 = 0%Z ->
        total = 2 /\ sent = 1 /\ received = 1).
Proof.
  intros H. apply POST_Json_inv in H as (s' & [= <-] & Hw & ->).
  cbv zeta. unfold analysis, assemble. cbn [summary Summary.totalMessages
    Summary.sentMessages Summary.receivedMessages Summary.uniqueContacts contactsFile].
  split_and!; try done.
  - intros Hb. apply boolean_counts, Forall_forall. intros r Hr.
    destruct (messagesQuery_flag _ _ _ Hr) as (m & Hm & ->).
    unfold flags_boolean in Hb. rewrite Forall_forall in Hb. auto.
  - intros m1 m2 Hk Hs H1 H2.
    rewrite messagesQuery_length, !messagesQuery_count by done.
    rewrite Hs. simpl. rewrite H1, H2. done.
Qed.

Lemma summary_counts_witness :
  Summary.totalMessages (summary (analysis quiet_world two_messages None)) = 2
  /\ Summary.sentMessages (summary (analysis quiet_world two_messages None)) = 1
  /\ Summary.receivedMessages (summary (analysis quiet_world two_messages None)) = 1.
Proof.
  destruct (summary_counts quiet_world two_messages None
              (analysis quiet_world two_messages None) eq_refl)
    as (_ & _ & _ & _ & _ & H).
  apply (H (message_at 1 700000000000000000 1 1) (message_at 2 700000060000000000 0 1)).
  - unfold keys_unique. simpl. split_and!; repeat constructor; set_solver.
  - reflexivity.
  - reflexivity.
  - reflexivity.
Defined.

(** ** Result-size limits (C9) *)

Global Instance desc_total {A} (key : A -> Z) : Total (desc key).
Proof. intros x y. unfold desc. lia. Qed.

Global Instance asc_total {A} (key : A -> Z) : Total (asc key).
Proof. intros x y. unfold asc. lia. Qed.

Lemma order_by_sorted {A} (R : relation A) `{!RelDecision R, !Total R} (rows : list A) :
  Sorted R (order_by R rows).
Proof. apply Sorted_merge_sort. exact _. Qed.

Lemma group_by_keys {A K} `{EqDecision K} (key : A -> K) (rows : list A) :
  List.map fst (group_by key rows) = remove_dups (List.map key rows).
Proof. unfold group_by. rewrite List.map_map. simpl. apply List.map_id. Qed.

Lemma hour_of_range (tz : Z -> Z) (date : Z) : (0 <= hour_of tz date <= 23)%Z.
Proof.
  unfold hour_of.
  pose proof (Z.mod_pos_bound (local_seconds tz date) 86400 eq_refl) as H.
  split.
  - apply Z.div_pos; lia.
  - apply Z.lt_succ_r. apply Z.div_lt_upper_bound; lia.
Qed.

Lemma hourlyStatsQuery_hours (tz : Z -> Z) (s : Store) :
  List.map fst (hourlyStatsQuery tz s)
  ≡ₚ remove_dups (List.map (fun m => hour_of tz (m_date m)) (message s)).
Proof.
  unfold hourlyStatsQuery. rewrite order_by_perm.
  rewrite List.map_map.
  rewrite <- group_by_keys. apply Permutation_refl'.
  apply List.map_ext. by intros [hour rows].
Qed.



(** ** Per-handle summary rows (C2) *)

Module Sums.

Lemma sum_add {A} (f g : A -> nat) (l : list A) :
  sum_list_with (fun x => f x + g x) l = sum_list_with f l + sum_list_with g l.
Proof. induction l as [|x l IH]; simpl; lia. Qed.

Lemma sum_ext {A} (f g : A -> nat) (l : list A) :
  (forall x, x ∈ l -> f x = g x) -> sum_list_with f l = sum_list_with g l.
Proof.
  induction l as [|x l IH]; intros H; simpl; [done|].
  rewrite H, IH; [done| |]; set_solver.
Qed.

Lemma sum_zero {A} (l : list A) : sum_list_with (fun _ => 0) l = 0.
Proof. induction l; simpl; lia. Qed.

Lemma sum_map {A B} (f : B -> nat) (g : A -> B) (l : list A) :
  sum_list_with f (List.map g l) = sum_list_with (fun a => f (g a)) l.
Proof. induction l as [|x l IH]; simpl; [done|]. by rewrite IH. Qed.

Lemma sum_indicator {A} (p : A -> bool) (l : list A) :
  sum_list_with (fun x => if p x then 1 else 0) l = List.length (List.filter p l).
Proof. induction l as [|x l IH]; simpl; [done|]. destruct (p x); simpl; lia. Qed.

Lemma length_filter_cons {A} (p : A -> bool) (x : A) (l : list A) :
  List.length (List.filter p (x :: l))
  = (if p x then 1 else 0) + List.length (List.filter p l).
Proof. simpl. by destruct (p x). Qed.

(** Counting the pairs of a relation row by row or column by column. *)
Lemma count_swap {A B} (on : A -> B -> bool) (l : list A) (r : list B) :
  sum_list_with (fun a => List.length (List.filter (on a) r)) l
  = sum_list_with (fun b => List.length (List.filter (fun a => on a b) l)) r.
Proof.
  induction l as [|a l IH]; simpl.
  - by rewrite sum_zero.
  - rewrite IH, <- sum_indicator, <- sum_add.
    apply sum_ext. intros b _. by destruct (on a b).
Qed.

Lemma sum_one_hot {K} `{EqDecision K} (x : K) (ks : list K) :
  NoDup ks ->
  sum_list_with (fun k => if bool_decide (x = k) then 1 else 0) ks
  = if bool_decide (x ∈ ks) then 1 else 0.
Proof.
  induction 1 as [|k ks Hk _ IH]; simpl; [done|].
  rewrite IH. repeat case_bool_decide; set_solver.
Qed.

(** The groups of [GROUP BY] partition the rows. *)
Lemma group_by_total {A K} `{EqDecision K} (key : A -> K) (rows : list A) :
  sum_list_with (fun g => List.length (snd g)) (group_by key rows) = List.length rows.
Proof.
  unfold group_by. rewrite sum_map. simpl.
  assert (forall r, r ∈ rows -> key r ∈ remove_dups (List.map key rows)) as Hin.
  { intros r Hr. apply elem_of_remove_dups, list_elem_of_In, List.in_map.
    by apply list_elem_of_In. }
  pose proof (NoDup_remove_dups (List.map key rows)) as Hnd.
  revert Hin Hnd. generalize (remove_dups (List.map key rows)) as ks.
  intros ks. induction rows as [|r rows IH]; intros Hin Hnd.
  - simpl. apply sum_zero.
  - erewrite sum_ext; [|intros k _; apply length_filter_cons].
    rewrite sum_add, IH by set_solver.
    erewrite sum_ext; [rewrite (sum_one_hot (key r) ks Hnd)|].
    + rewrite bool_decide_eq_true_2 by set_solver. done.
    + intros k _. simpl. done.
Qed.

Lemma remove_dups_NoDup {A} `{EqDecision A} (l : list A) :
  NoDup l -> remove_dups l = l.
Proof.
  induction 1 as [|x l Hx _ IH]; simpl; [done|].
  destruct (decide_rel elem_of x l); [done | by rewrite IH].
Qed.

End Sums.
Import Sums.

Module ContactRows.

Lemma left_join_elem {A B} (on : A -> B -> bool) (l : list A) (r : list B) a ob :
  (a, ob) ∈ left_join on l r ->
  (ob = None /\ List.filter (on a) r = [])
  \/ (exists b, ob = Some b /\ b ∈ r /\ on a b = true).
Proof.
  unfold left_join. intros H%list_elem_of_In%List.in_flat_map.
  destruct H as (a' & _ & H).
  destruct (List.filter (on a') r) as [|b' bs] eqn:E.
  - apply list_elem_of_In, list_elem_of_singleton in H. simplify_eq. by left.
  - apply List.in_map_iff in H as (b & [= <- <-] & Hb). right.
    rewrite <- E in Hb. apply List.filter_In in Hb as [Hb Hon].
    exists b. by rewrite list_elem_of_In.
Qed.

Lemma left_join_length {A B} (on : A -> B -> bool) (l : list A) (r : list B) :
  (forall a, a ∈ l -> List.filter (on a) r <> []) ->
  List.length (left_join on l r)
  = sum_list_with (fun a => List.length (List.filter (on a) r)) l.
Proof.
  unfold left_join. induction l as [|a l IH]; intros H; [done|].
  change (flat_map ?f (a :: l)) with (f a ++ flat_map f l)%list.
  rewrite List.length_app, IH by set_solver. simpl. f_equal.
  specialize (H a ltac:(set_solver)).
  destruct (List.filter (on a) r); [done|]. simpl. by rewrite List.length_map.
Qed.

Lemma used_handle_matches (s : Store) (h : handle_row) :
  every_handle_used s -> h ∈ handle s ->
  List.filter (fun m => (h_ROWID h =? m_handle_id m)%Z) (message s) <> [].
Proof.
  intros Hu Hh. destruct (Hu h Hh) as (m & Hm & Heq).
  assert (List.In m (List.filter (fun m => (h_ROWID h =? m_handle_id m)%Z) (message s)))
    as Hin.
  { apply List.filter_In. split; [by apply list_elem_of_In|]. by apply Z.eqb_eq. }
  intros E. by rewrite E in Hin.
Qed.

(** In a group all of whose rows carry a message with a flag 0 or 1, the two
    conditional sums add up to the row count. *)
Lemma count_flag_total (rows : list (handle_row * option message_row)) :
  Forall (fun row => exists m, snd row = Some m
                     /\ (m_is_from_me m = 0%Z \/ m_is_from_me m = 1%Z)) rows ->
  count_flag 0 rows + count_flag 1 rows = List.length rows.
Proof.
  unfold count_flag.
  induction 1 as [|[h om] rows (m & Hm & Hf) _ IH]; simpl in *; [done|].
  subst om. destruct Hf as [-> | ->]; simpl; lia.
Qed.

Lemma contacts_row_adds_up (s : Store) (k : contacts_result) :
  k ∈ contactsQuery s ->
  (exists m, m ∈ message s /\ m_handle_id m = k_ROWID k) ->
  (forall m, m ∈ message s -> m_handle_id m = k_ROWID k ->
     m_is_from_me m = 0%Z \/ m_is_from_me m = 1%Z) ->
  k_received_count k + k_sent_count k = k_message_count k.
Proof.
  unfold contactsQuery. rewrite order_by_perm, elem_of_remove_dups.
  intros H%list_elem_of_In%List.in_map_iff.
  destruct H as (g & <- & H).
  unfold group_by in H. apply List.in_map_iff in H as ([rowid id] & <- & _).
  cbn [contacts_select k_received_count k_sent_count k_message_count k_ROWID].
  intros (m0 & Hm0 & Heq0) Hflags.
  apply count_flag_total, Forall_forall. intros [h om] Hrow.
  apply list_elem_of_In, List.filter_In in Hrow as [Hrow%list_elem_of_In Hkey].
  apply bool_decide_eq_true in Hkey as [= Hrowid _].
  apply left_join_elem in Hrow as [[_ Hnone]|(m & -> & Hm & Hon)].
  - exfalso.
    assert (List.In m0 (List.filter (fun m => (h_ROWID h =? m_handle_id m)%Z) (message s)))
      as Hin.
    { apply List.filter_In. split; [by apply list_elem_of_In|].
      apply Z.eqb_eq. congruence. }
    by rewrite Hnone in Hin.
  - exists m. split; [done|]. apply Z.eqb_eq in Hon.
    apply Hflags; [done|]. simpl. congruence.
Qed.

Lemma contactsQuery_total (s : Store) :
  sum_list_with k_message_count (contactsQuery s)
  = List.length (contacts_from s).
Proof.
  unfold contactsQuery. rewrite order_by_perm.
  set (key := fun '(h, _) => (h_ROWID h, h_id h)).
  rewrite remove_dups_NoDup.
  - rewrite sum_map, <- (group_by_total key).
    apply sum_ext. by intros [[rowid id] rows] _.
  - apply (NoDup_fmap_1 (fun k => (k_ROWID k, k_phone_number k))).
    change (NoDup (List.map (fun k => (k_ROWID k, k_phone_number k))
                     (List.map contacts_select (group_by key (contacts_from s))))).
    rewrite List.map_map.
    rewrite (List.map_ext _ fst) by (by intros [[rowid id] rows]).
    rewrite group_by_keys. apply NoDup_remove_dups.
Qed.

Lemma length_le_1 {A} (l : list A) :
  List.length l <= 1 -> List.length l = if non_null (head l) then 1 else 0.
Proof. destruct l as [|x [|y l]]; simpl; lia. Qed.

(** Under the hypotheses, the row counts of the per-handle summary add up to
    the number of messages that have a handle. *)
Lemma contacts_from_length (s : Store) :
  every_handle_used s -> NoDup (List.map h_ROWID (handle s)) ->
  List.length (contacts_from s)
  = List.length (List.filter (fun m => non_null (handle_of s m)) (message s)).
Proof.
  intros Hu Hnd. unfold contacts_from.
  rewrite left_join_length by (intros h Hh; by apply used_handle_matches).
  rewrite count_swap, <- sum_indicator. apply sum_ext. intros m _.
  unfold handle_of.
  erewrite List.filter_ext; [|intros h; apply Z.eqb_sym].
  apply length_le_1. by apply filter_key_unique.
Qed.

End ContactRows.
Import ContactRows.

(** A message whose flag is 2 is in its handle's row count and in neither
    conditional sum: the row reads messageCount 1, receivedCount 0,
    sentCount 0.  (A handle without any message gives the same row, since the
    left join keeps one row for it.) *)
Lemma summary_rows_add_up_refuted : ~ summary_rows_add_up.
Proof.
  intros H. specialize (H quiet_world odd_flag None _ eq_refl).
  vm_compute in H. apply Forall_inv in H. discriminate.
Qed.

Example silent_handle_row :
  contactsQuery silent_handle
  = [{| k_ROWID := 1; k_phone_number := "+15551234567";
        k_message_count := 1; k_received_count := 0; k_sent_count := 0 |}].
Proof. vm_compute. reflexivity. Qed.

(** A message joined to two chats is two rows of the all-messages result and
    one message of its handle: the row counts of the two queries differ. *)
Example two_chats_rows :
  sum_list_with k_message_count (contactsQuery two_chats) = 1
  /\ List.length
       (List.filter (fun r => non_null (r_phone_number r))
          (messagesQuery (fun _ => 0%Z) two_chats)) = 2.
Proof. vm_compute. done. Qed.

(** C2, as the code has it. For every store, every row of the per-handle
    summary whose handle has at least one message, all of them with direction
    flag 0 or 1, satisfies receivedCount + sentCount = messageCount; when
    every handle has at least one message, the row ids of handles and chats
    are unique and no message is joined to more than one chat, the sum of
    messageCount over all rows is the number of rows of the all-messages
    result with a non-null handle; and under the conditions on the keys that
    result has one row per message. *)
Theorem contact_rows_add_up (w : World) (s : Store) (cf : option contacts_file)
    (body : AnalysisResult) :
  fst (POST {| file := Some (Db s); contactsFile := cf |} w) = Returned (Json body) ->
  (forall c,
     c ∈ contacts body ->
     (exists m, m ∈ message s /\ m_handle_id m = Contact.id c) ->
     (forall m, m ∈ message s -> m_handle_id m = Contact.id c ->
        m_is_from_me m = 0%Z \/ m_is_from_me m = 1%Z) ->
     Contact.receivedCount c + Contact.sentCount c = Contact.messageCount c)
  /\ (every_handle_used s -> keys_unique s ->
      sum_list_with Contact.messageCount (contacts body)
      = List.length
          (List.filter (fun r => non_null (r_phone_number r)) (messagesQuery (tz w) s)))
  /\ (keys_unique s ->
      Summary.totalMessages (summary body) = List.length (message s)).
Proof.
  intros H. apply POST_Json_inv in H as (s' & [= <-] & Hw & ->).
  unfold analysis, assemble. cbn [contacts summary Summary.totalMessages].
  split_and!.
  - intros c (k & <- & Hk%list_elem_of_In)%list_elem_of_In%List.in_map_iff.
    cbn [format_contact Contact.id Contact.receivedCount Contact.sentCount
         Contact.messageCount].
    by apply contacts_row_adds_up.
  - intros Hu Hk.
    rewrite sum_map. simpl. rewrite contactsQuery_total.
    rewrite contacts_from_length by (done || apply Hk).
    rewrite messagesQuery_count by done.
    f_equal. apply List.filter_ext. intros m. simpl.
    by destruct (handle_of s m).
  - intros Hk. by apply messagesQuery_length.
Qed.

Lemma contact_rows_add_up_witness :
  Forall (fun c => Contact.receivedCount c + Contact.sentCount c = Contact.messageCount c)
    (contacts (analysis quiet_world two_messages None))
  /\ sum_list_with Contact.messageCount (contacts (analysis quiet_world odd_flag None))
     = List.length
         (List.filter (fun r => non_null (r_phone_number r))
            (messagesQuery (tz quiet_world) odd_flag)).
Proof.
  split.
  - apply Forall_forall. intros c Hc.
    apply (proj1 (contact_rows_add_up quiet_world two_messages None
                    (analysis quiet_world two_messages None) eq_refl) c Hc).
    + apply list_elem_of_singleton in Hc as ->.
      exists (message_at 1 700000000000000000 1 1).
      split; [apply list_elem_of_here | reflexivity].
    + intros m Hm _. simpl in Hm.
      apply elem_of_cons in Hm as [->|Hm]; [by right|].
      apply list_elem_of_singleton in Hm as ->. by left.
  - apply (proj1 (proj2 (contact_rows_add_up quiet_world odd_flag None
                           (analysis quiet_world odd_flag None) eq_refl))).
    + intros h Hh. apply list_elem_of_singleton in Hh as ->.
      exists (message_at 1 700000000000000000 2 1).
      split; [apply list_elem_of_here | reflexivity].
    + unfold keys_unique. simpl. split_and!; repeat constructor; set_solver.
Defined.

(** * Further properties of the code *)

(** ** Where the entries of the directory come from *)

Lemma add_contacts_provenance contacts (d : gmap string string) k n :
  foldl add_contact d contacts !! k = Some n ->
  d !! k = Some n
  \/ exists c, c ∈ contacts /\ k ∈ contact_keys c /\ n = display_name c.
Proof.
  revert d; induction contacts as [|c cs IH]; intros d H; simpl in H; [by left|].
  apply IH in H as [H|(c' & Hc' & Hk & Hn)].
  - rewrite add_contact_lookup in H. case_decide as Hk.
    + right. exists c. split_and!; [set_solver|done|congruence].
    + by left.
  - right. exists c'. split_and!; [set_solver|done..].
Qed.

Lemma contact_keys_inv contact k :
  k ∈ contact_keys contact ->
  display_name contact <> ""
  /\ exists value, value ∈ telMatches contact /\ k ∈ phone_keys value.
Proof.
  unfold contact_keys.
  destruct (Str.is_empty (Str.trim contact)); [set_solver|].
  destruct (Str.is_empty (display_name contact)) eqn:E; [set_solver|].
  intros H%list_elem_of_In%List.in_flat_map. destruct H as (v & Hv & Hk).
  split; [by apply is_empty_false|].
  exists v. by rewrite !list_elem_of_In.
Qed.

Lemma phone_keys_inv value k :
  k ∈ phone_keys value ->
  10 <= String.length (key_of_value value)
  /\ (k = key_of_value value
      \/ k = Str.slice_last 10 (key_of_value value)
      \/ k = Str.drop 1 (key_of_value value)).
Proof.
  unfold phone_keys. fold (key_of_value value).
  destruct (negb (Str.is_empty (key_of_value value))
            && (10 <=? String.length (key_of_value value))%nat) eqn:E; [|set_solver].
  apply andb_true_iff in E as [_ E%Nat.leb_le]. intros Hk. split; [done|].
  apply elem_of_cons in Hk as [->|Hk]; [by left|].
  apply elem_of_app in Hk as [Hk|Hk].
  - destruct (10 <? String.length (key_of_value value))%nat; [|set_solver].
    apply list_elem_of_singleton in Hk as ->. by right; left.
  - destruct ((String.length (key_of_value value) =? 11)%nat
              && Str.starts_with_char "1"%char (key_of_value value)); [|set_solver].
    apply list_elem_of_singleton in Hk as ->. by right; right.
Qed.

(** X1. Every entry of the directory comes from a telephone field of a record
    that has a name: its key is the digits of the value (at least ten), their
    last ten, or the digits without their first, and its name is the display
    name of that record, which is not empty. *)
Theorem directory_entries_from_records (text k n : string) :
  parseVCard text !! k = Some n ->
  exists contact value,
    contact ∈ contacts_of text
    /\ value ∈ telMatches contact
    /\ n = display_name contact
    /\ n <> ""
    /\ 10 <= String.length (key_of_value value)
    /\ (k = key_of_value value
        \/ k = Str.slice_last 10 (key_of_value value)
        \/ k = Str.drop 1 (key_of_value value)).
Proof.
  unfold parseVCard. intros H.
  apply add_contacts_provenance in H as [H|(c & Hc & Hk & ->)];
    [by rewrite lookup_empty in H|].
  apply contact_keys_inv in Hk as (Hne & v & Hv & Hk).
  apply phone_keys_inv in Hk as [Hlen Hk].
  exists c, v. done.
Qed.

Lemma directory_entries_from_records_witness :
  exists contact value,
    contact ∈ contacts_of jane /\ value ∈ telMatches contact
    /\ "Jane Doe" = display_name contact.
Proof.
  destruct (directory_entries_from_records jane "5551234567" "Jane Doe")
    as (c & v & Hc & Hv & Hn & _).
  - vm_compute. reflexivity.
  - exists c, v. done.
Defined.

Lemma add_contacts_persist contacts (d : gmap string string) k :
  is_Some (d !! k) -> is_Some (foldl add_contact d contacts !! k).
Proof.
  revert d; induction contacts as [|c cs IH]; intros d Hd; simpl; [done|].
  apply IH. rewrite add_contact_lookup. case_decide; [eauto|done].
Qed.

(** X2. A key, once in the directory, stays: the records that follow may
    give it another name, none of them removes it. *)
Theorem directory_keys_persist (text : string) (before after : list string) (k : string) :
  contacts_of text = (before ++ after)%list ->
  is_Some (foldl add_contact ∅ before !! k) ->
  is_Some (parseVCard text !! k).
Proof.
  intros Hsplit Hk. unfold parseVCard. rewrite Hsplit, foldl_app.
  by apply add_contacts_persist.
Qed.

Lemma directory_keys_persist_witness :
  is_Some (parseVCard alice_then_bob !! "5551234567").
Proof.
  apply (directory_keys_persist alice_then_bob
           (firstn 2 (contacts_of alice_then_bob))
           (skipn 2 (contacts_of alice_then_bob))).
  - symmetry. apply firstn_skipn.
  - vm_compute. eauto.
Defined.

Lemma parseVCard_names text k n : parseVCard text !! k = Some n -> n <> "".
Proof.
  unfold parseVCard. intros H.
  apply add_contacts_provenance in H as [H|(c & _ & Hk & ->)];
    [by rewrite lookup_empty in H|].
  by apply contact_keys_inv in Hk as [Hne _].
Qed.

(** ** Resolving a handle *)

(** X3. How a handle is resolved against a parsed directory: an absent or
    empty handle has no name; any other handle is looked up by its digits,
    and, when they are not a key, by their last ten; whatever else the handle
    contains plays no part. *)
Theorem handle_resolution (text : string) :
  getContactName (parseVCard text) None = None
  /\ getContactName (parseVCard text) (Some "") = None
  /\ (forall p, p <> "" ->
        getContactName (parseVCard text) (Some p)
        = match parseVCard text !! normalizePhoneNumber p with
          | Some n => Some n
          | None => parseVCard text !! Str.slice_last 10 (normalizePhoneNumber p)
          end)
  /\ (forall p q, p <> "" -> q <> "" ->
        normalizePhoneNumber p = normalizePhoneNumber q ->
        getContactName (parseVCard text) (Some p)
        = getContactName (parseVCard text) (Some q)).
Proof.
  assert (forall p, p <> "" ->
    getContactName (parseVCard text) (Some p)
    = match parseVCard text !! normalizePhoneNumber p with
      | Some n => Some n
      | None => parseVCard text !! Str.slice_last 10 (normalizePhoneNumber p)
      end) as Hres.
  { intros p Hp. unfold getContactName, or_else.
    apply is_empty_false in Hp. rewrite Hp.
    destruct (parseVCard text !! normalizePhoneNumber p) as [n|] eqn:E1.
    - apply parseVCard_names, is_empty_false in E1. by rewrite E1.
    - destruct (parseVCard text !! Str.slice_last 10 (normalizePhoneNumber p))
        as [n|] eqn:E2; [|done].
      apply parseVCard_names, is_empty_false in E2. by rewrite E2. }
  split_and!; [done..|exact Hres|].
  intros p q Hp Hq Heq. by rewrite !Hres, Heq.
Qed.

Lemma handle_resolution_witness :
  getContactName (parseVCard jane) (Some "+1 555 123 4567")
  = getContactName (parseVCard jane) (Some "1-555-123-4567").
Proof.
  destruct (handle_resolution jane) as (_ & _ & _ & H).
  apply H; [discriminate | discriminate | vm_compute; reflexivity].
Defined.

(** ** Telephone fields *)

Module TelFacts.

Lemma telMatches_go_none (b : bool) s :
  occurs (Str.lits_ci "TEL") s = false -> telMatches_go b s = [].
Proof.
  revert b; induction s as [|c t IH]; intros b H; [done|].
  cbn [occurs] in H. apply orb_false_iff in H as [Hm Ht].
  cbn [telMatches_go]. rewrite Hm. destruct b; auto.
Qed.

(** Up to the start of a line, the scan yields its matches and is then back
    in its initial state. *)
Lemma telMatches_go_line_start pre rest (b : bool) :
  (pre = "" -> b = false) -> ends_line pre = true ->
  exists l, telMatches_go b (pre ++ rest) = (l ++ telMatches_go false rest)%list.
Proof.
  revert b; induction pre as [|c t IH]; intros b Hb Hend.
  - rewrite Hb by done. by exists [].
  - change (String c t ++ rest) with (String c (t ++ rest)).
    assert (ends_line t = true) as Ht by (destruct t; [done|exact Hend]).
    assert (t = "" -> c = LF) as Hc.
    { intros ->. simpl in Hend. by apply Ascii.eqb_eq. }
    cbn [telMatches_go]. destruct b.
    + apply IH; [|done]. intros ->%Hc. done.
    + destruct (Str.matches_at (Str.lits_ci "TEL") (String c (t ++ rest))) eqn:Hm;
        [|by apply IH].
      assert (t <> "") as Hne.
      { intros ->%Hc. vm_compute in Hm. discriminate. }
      destruct (after_colon _) as [v|]; [|by apply IH].
      destruct (IH true) as [l Hl]; [done..|].
      exists (v :: l). by rewrite Hl.
Qed.

Lemma after_colon_app params r :
  free_of ":"%char params = true -> no_line_feed params = true ->
  after_colon (params ++ String ":"%char r) = Some (Str.take_line r).
Proof.
  unfold free_of, no_line_feed, none_of.
  induction params as [|c t IH]; intros Hc Hl; [done|].
  simpl in Hc, Hl. rewrite orb_false_r in Hc, Hl.
  apply andb_true_iff in Hc as [Hc Hc'], Hl as [Hl Hl'].
  apply negb_true_iff in Hc, Hl.
  change (String c t ++ String ":"%char r) with (String c (t ++ String ":"%char r)).
  cbn [after_colon]. rewrite Hc, Hl. auto.
Qed.

Lemma tel_line_extracted pre params v tail :
  ends_line pre = true ->
  free_of ":"%char params = true -> no_line_feed params = true ->
  no_line_feed v = true -> at_line_end tail = true ->
  v ∈ telMatches (pre ++ "TEL" ++ params ++ ":" ++ v ++ tail).
Proof.
  intros Hpre Hc Hl Hv Htail. unfold telMatches.
  destruct (telMatches_go_line_start pre ("TEL" ++ params ++ ":" ++ v ++ tail) false)
    as [l ->]; [done..|].
  apply elem_of_app. right.
  change ("TEL" ++ params ++ ":" ++ v ++ tail)
    with (String "T" (String "E" (String "L" (params ++ String ":" (v ++ tail))))).
  cbn [telMatches_go]. 
  change (Str.matches_at (Str.lits_ci "TEL")
            (String "T" (String "E" (String "L" (params ++ String ":" (v ++ tail))))))
    with true.
  cbn [Str.drop]. rewrite after_colon_app, take_line_app by done.
  apply list_elem_of_here.
Qed.

End TelFacts.
Import TelFacts.

(** X4. Every telephone field that begins a line of a record is found,
    whatever surrounds it: the field name TEL, parameters without a colon, a
    colon, and the value up to the end of the line. *)
Theorem telephone_fields_found (pre params v tail : string) :
  ends_line pre = true ->
  free_of ":"%char params = true -> no_line_feed params = true ->
  no_line_feed v = true -> at_line_end tail = true ->
  v ∈ telMatches (pre ++ "TEL" ++ params ++ ":" ++ v ++ tail).
Proof. apply tel_line_extracted. Qed.

Lemma telephone_fields_found_witness :
  "555-987-6543"
  ∈ telMatches
      (text_of_lines [""; "FN:Jane Doe"; "TEL;TYPE=CELL:555-123-4567";
                      "TEL;TYPE=HOME:555-987-6543"; "END:VCARD"]).
Proof.
  apply (telephone_fields_found
           (text_of_lines [""; "FN:Jane Doe"; "TEL;TYPE=CELL:555-123-4567"; ""])
           ";TYPE=HOME" "555-987-6543" (text_of_lines [""; "END:VCARD"]));
    vm_compute; reflexivity.
Defined.

(** ** Texts without telephone fields *)

Module SplitFacts.

Lemma matches_at_app pat x y :
  Str.matches_at pat x = true -> Str.matches_at pat (x ++ y) = true.
Proof.
  revert x; induction pat as [|p pat IH]; intros x H; [done|].
  destruct x as [|c x]; [simpl in H; discriminate|].
  change (String c x ++ y) with (String c (x ++ y)).
  cbn [Str.matches_at] in *. apply andb_true_iff in H as [Hp H].
  rewrite Hp. simpl. by apply IH.
Qed.

Lemma occurs_cons pat c s : occurs pat s = true -> occurs pat (String c s) = true.
Proof. intros H. cbn [occurs]. rewrite H. apply orb_true_r. Qed.

Lemma split_go_cons pat skip s :
  exists (h : string) (r : list string), Str.split_go pat skip s = h :: r.
Proof.
  revert skip; induction s as [|c t IH]; intros skip; simpl; [eauto|].
  destruct skip; [|apply IH].
  destruct (Str.matches_at pat (String c t)); [eauto|].
  destruct (IH 0) as (h & r & ->). eauto.
Qed.

(** The first chunk of a split is a prefix of the text. *)
Lemma split_go_head pat s h r :
  Str.split_go pat 0 s = h :: r -> exists rest, s = h ++ rest.
Proof.
  revert h r; induction s as [|c t IH]; intros h r H; simpl in H.
  - injection H as <- _. by exists "".
  - destruct (Str.matches_at pat (String c t)).
    + injection H as <- _. by exists (String c t).
    + destruct (Str.split_go pat 0 t) as [|h' r'] eqn:E; injection H as <- <-.
      * by exists t.
      * destruct (IH _ _ eq_refl) as [rest ->]. by exists rest.
Qed.

(** What occurs in a chunk of a split occurs in the text. *)
Lemma split_go_occurs pat q skip s c :
  c ∈ Str.split_go pat skip s -> occurs q c = true -> occurs q s = true.
Proof.
  revert skip c; induction s as [|a t IH]; intros skip c Hc Hq.
  - simpl in Hc. by apply list_elem_of_singleton in Hc as ->.
  - cbn [Str.split_go] in Hc. destruct skip as [|k].
    + destruct (Str.matches_at pat (String a t)) eqn:Hm.
      * apply elem_of_cons in Hc as [->|Hc].
        -- simpl in Hq. rewrite orb_false_r in Hq.
           cbn [occurs]. destruct q; [done|discriminate].
        -- apply occurs_cons. by eapply IH.
      * destruct (Str.split_go pat 0 t) as [|h r] eqn:E.
        { destruct (split_go_cons pat 0 t) as (? & ? & ?). congruence. }
        apply elem_of_cons in Hc as [->|Hc].
        -- cbn [occurs] in Hq. apply orb_true_iff in Hq as [Hq|Hq].
           ++ destruct (split_go_head _ _ _ _ E) as [rest ->].
              cbn [occurs].
              change (String a (h ++ rest)) with (String a h ++ rest).
              by rewrite matches_at_app.
           ++ apply occurs_cons. apply (IH 0 h); [|done].
              rewrite E. apply list_elem_of_here.
        -- apply occurs_cons. apply (IH 0 c); [|done].
           rewrite E. by apply list_elem_of_further.
    + apply occurs_cons. by eapply IH.
Qed.

End SplitFacts.
Import SplitFacts.

Lemma add_contact_without_tel (d : gmap string string) contact :
  occurs (Str.lits_ci "TEL") contact = false -> add_contact d contact = d.
Proof.
  intros H. unfold add_contact, telMatches. rewrite telMatches_go_none by done.
  by repeat destruct (Str.is_empty _).
Qed.

(** X5. An address book in which, once its lines are unfolded, the letters
    TEL occur nowhere (in any case) gives the empty directory: names alone
    make no entry. *)
Theorem no_telephone_no_entries (text : string) :
  occurs (Str.lits_ci "TEL") (normalize_lines text) = false ->
  parseVCard text = ∅.
Proof.
  intros H. unfold parseVCard, contacts_of, Str.split_on.
  assert (forall c, c ∈ Str.split_go (Str.lits_ci "BEGIN:VCARD") 0 (normalize_lines text) ->
                    occurs (Str.lits_ci "TEL") c = false) as Hall.
  { intros c Hc. destruct (occurs (Str.lits_ci "TEL") c) eqn:E; [|done].
    by rewrite (split_go_occurs _ _ _ _ _ Hc E) in H. }
  revert Hall. generalize (Str.split_go (Str.lits_ci "BEGIN:VCARD") 0 (normalize_lines text)).
  intros l. generalize (∅ : gmap string string) as d.
  induction l as [|c cs IH]; intros d Hall; simpl; [done|].
  rewrite add_contact_without_tel by (apply Hall; set_solver).
  apply IH. intros; apply Hall; set_solver.
Qed.

Lemma no_telephone_no_entries_witness :
  parseVCard (text_of_lines ["BEGIN:VCARD"; "FN:Jane Doe"; "EMAIL:jane@example.org"; "END:VCARD"])
  = ∅.
Proof. apply no_telephone_no_entries. vm_compute. reflexivity. Defined.

(** ** A record and the handles it answers to *)

Module RecordFacts.

Lemma trim_end_empty s : Str.trim_end s = "" -> Str.forallb is_space s = true.
Proof.
  induction s as [|c t IH]; [done|]. cbn [Str.trim_end Str.forallb].
  destruct (is_space c); simpl; [|discriminate].
  destruct (Str.trim_end t); [auto|discriminate].
Qed.

Lemma trim_start_spaces s :
  Str.forallb is_space (Str.trim_start s) = true -> Str.forallb is_space s = true.
Proof.
  induction s as [|c t IH]; [done|]. cbn [Str.trim_start Str.forallb].
  destruct (is_space c) eqn:E; simpl; [exact IH|]. by rewrite E.
Qed.

Lemma trim_empty s : Str.trim s = "" -> Str.forallb is_space s = true.
Proof. intros H. by apply trim_start_spaces, trim_end_empty. Qed.

Lemma forallb_app p x y :
  Str.forallb p (x ++ y) = Str.forallb p x && Str.forallb p y.
Proof.
  induction x as [|c x IH]; [done|].
  change (String c x ++ y) with (String c (x ++ y)).
  cbn [Str.forallb]. by rewrite IH, andb_assoc.
Qed.

Lemma slice_last_all s :
  String.length s <= 10 -> Str.slice_last 10 s = s.
Proof.
  intros H. unfold Str.slice_last.
  by replace (String.length s - 10) with 0 by lia.
Qed.

(** The directory of one record holds one name. *)
Lemma single_record_name contact k n :
  add_contact ∅ contact !! k = Some n -> n = display_name contact.
Proof.
  rewrite add_contact_lookup. case_decide; [congruence|by rewrite lookup_empty].
Qed.

Lemma phone_keys_last_ten value :
  10 <= String.length (key_of_value value) ->
  Str.slice_last 10 (key_of_value value) ∈ phone_keys value.
Proof.
  intros H. unfold phone_keys. fold (key_of_value value).
  assert (Str.is_empty (key_of_value value) = false) as ->
    by (destruct (key_of_value value); [simpl in H; lia|done]).
  apply Nat.leb_le in H as Hle. rewrite Hle. simpl.
  destruct (10 <? String.length (key_of_value value))%nat eqn:E.
  - set_solver.
  - apply Nat.ltb_ge in E. rewrite slice_last_all by done. set_solver.
Qed.

End RecordFacts.
Import RecordFacts.

(** X6. A record answers to every spelling of its numbers.  Take a record
    with a name and a telephone field whose value has at least ten digits,
    and file it in an empty directory: every handle with at least ten digits
    whose last ten digits are the last ten digits of the value resolves to
    the record's name, whatever punctuation or country code either of the
    two carries. *)
Theorem record_answers_to_its_number (pre params v tail handle : string) :
  let contact := pre ++ "TEL" ++ params ++ ":" ++ v ++ tail in
  ends_line pre = true ->
  free_of ":"%char params = true -> no_line_feed params = true ->
  no_line_feed v = true -> at_line_end tail = true ->
  display_name contact <> "" ->
  10 <= String.length (key_of_value v) ->
  10 <= String.length (normalizePhoneNumber handle) ->
  Str.slice_last 10 (normalizePhoneNumber handle) = Str.slice_last 10 (key_of_value v) ->
  getContactName (add_contact ∅ contact) (Some handle) = Some (display_name contact).
Proof.
  intros contact Hpre Hc Hl Hv Htail Hname Hkey Hhandle Hlast.
  assert (Str.slice_last 10 (key_of_value v) ∈ contact_keys contact) as Hin.
  { unfold contact_keys.
    destruct (Str.is_empty (Str.trim contact)) eqn:E.
    - apply is_empty_true, trim_empty in E. unfold contact in E.
      rewrite forallb_app in E. apply andb_true_iff in E as [_ E].
      vm_compute in E. discriminate.
    - apply is_empty_false in Hname as ->.
      apply list_elem_of_In, List.in_flat_map. exists v.
      rewrite <- !list_elem_of_In. split.
      + by apply tel_line_extracted.
      + by apply phone_keys_last_ten. }
  assert (add_contact ∅ contact !! Str.slice_last 10 (normalizePhoneNumber handle)
          = Some (display_name contact)) as Hten
    by (rewrite Hlast, add_contact_lookup, decide_True; done).
  unfold getContactName, or_else.
  assert (Str.is_empty handle = false) as ->
    by (destruct handle; [simpl in Hhandle; lia|done]).
  apply is_empty_false in Hname as Hne. rewrite Hten, Hne.
  destruct (add_contact ∅ contact !! normalizePhoneNumber handle) as [n|] eqn:E; [|done].
  apply single_record_name in E as ->. by rewrite Hne.
Qed.

Lemma record_answers_to_its_number_witness :
  getContactName (add_contact ∅ jane_record) (Some "(555) 123-4567") = Some "Jane Doe".
Proof.
  apply (record_answers_to_its_number
           (text_of_lines [""; "FN:Jane Doe"; ""]) "" "+1 (555) 123-4567"
           (text_of_lines [""; "END:VCARD"]) "(555) 123-4567");
    vm_compute; first [reflexivity | discriminate | lia].
Defined.

(** ** Line endings *)

Lemma replace_crlf s :
  free_of CR s = true ->
  Str.replace_all [lit CR; lit LF] (String LF "") (to_crlf s) = s.
Proof.
  unfold Str.replace_all, free_of, none_of.
  induction s as [|c t IH]; [done|].
  cbn [Str.forallb existsb]. rewrite orb_false_r.
  intros [Hc Ht]%andb_true_iff. apply negb_true_iff in Hc.
  cbn [to_crlf]. destruct (Ascii.eqb c LF) eqn:E.
  - apply Ascii.eqb_eq in E as ->.
    cbn [Str.replace_go Str.matches_at lit List.length]. simpl.
    f_equal. by apply IH.
  - cbn [Str.replace_go Str.matches_at]. unfold lit at 1. rewrite Hc. simpl.
    f_equal. by apply IH.
Qed.

(** X7. Windows line endings make no difference: an address book without
    carriage returns and the same text with a carriage return before every
    line feed give the same directory. *)
Theorem crlf_makes_no_difference (text : string) :
  free_of CR text = true ->
  parseVCard (to_crlf text) = parseVCard text.
Proof.
  intros H. unfold parseVCard, contacts_of, normalize_lines.
  rewrite replace_crlf by done.
  by rewrite (replace_all_absent CR [lit LF] _ text H).
Qed.

Lemma crlf_makes_no_difference_witness :
  parseVCard (to_crlf jane) = parseVCard jane.
Proof. apply crlf_makes_no_difference. vm_compute. reflexivity. Defined.

(** ** The per-handle summary, for every store *)

Module SummaryFacts.

Lemma count_flag_le (rows : list (handle_row * option message_row)) :
  count_flag 0 rows + count_flag 1 rows <= List.length rows.
Proof.
  unfold count_flag. induction rows as [|[h [m|]] rows IH]; simpl; [lia| |lia].
  destruct (Z.eqb_spec (m_is_from_me m) 0) as [->|_]; simpl; [lia|].
  destruct (m_is_from_me m =? 1)%Z; simpl; lia.
Qed.

Lemma group_by_elem {A K} `{EqDecision K} (key : A -> K) (rows : list A) k g :
  (k, g) ∈ group_by key rows ->
  g = List.filter (fun r => bool_decide (key r = k)) rows
  /\ exists r, r ∈ rows /\ key r = k.
Proof.
  unfold group_by. intros H%list_elem_of_In%List.in_map_iff.
  destruct H as (k' & [= <- <-] & Hk%list_elem_of_In).
  split; [done|].
  apply elem_of_remove_dups, list_elem_of_In, List.in_map_iff in Hk
    as (r & <- & Hr%list_elem_of_In).
  eauto.
Qed.

Lemma group_by_nonempty {A K} `{EqDecision K} (key : A -> K) (rows : list A) k g :
  (k, g) ∈ group_by key rows -> 1 <= List.length g.
Proof.
  intros (-> & r & Hr & Hk)%group_by_elem.
  assert (List.In r (List.filter (fun r => bool_decide (key r = k)) rows)) as Hin.
  { apply List.filter_In. split; [by apply list_elem_of_In|].
    by apply bool_decide_eq_true. }
  destruct (List.filter _ rows); [done|simpl; lia].
Qed.

Lemma contactsQuery_elem (s : Store) (k : contacts_result) :
  k ∈ contactsQuery s ->
  exists g, g ∈ group_by (fun '(h, _) => (h_ROWID h, h_id h)) (contacts_from s)
            /\ k = contacts_select g.
Proof.
  unfold contactsQuery. rewrite order_by_perm, elem_of_remove_dups.
  intros H%list_elem_of_In%List.in_map_iff.
  destruct H as (g & <- & Hg%list_elem_of_In). eauto.
Qed.

Lemma left_join_covers {A B} (on : A -> B -> bool) (l : list A) (r : list B) a :
  a ∈ l -> exists ob, (a, ob) ∈ left_join on l r.
Proof.
  intros Ha. unfold left_join.
  destruct (List.filter (on a) r) as [|b bs] eqn:E.
  - exists None. apply list_elem_of_In, List.in_flat_map. exists a.
    split; [by apply list_elem_of_In|]. rewrite E. by left.
  - exists (Some b). apply list_elem_of_In, List.in_flat_map. exists a.
    split; [by apply list_elem_of_In|]. rewrite E. by left.
Qed.

Lemma contacts_rows_keys (s : Store) :
  List.map (fun k => (k_ROWID k, k_phone_number k))
    (List.map contacts_select
       (group_by (fun '(h, _) => (h_ROWID h, h_id h)) (contacts_from s)))
  = remove_dups (List.map (fun '(h, _) => (h_ROWID h, h_id h)) (contacts_from s)).
Proof.
  rewrite List.map_map.
  rewrite (List.map_ext _ fst) by (by intros [[rowid id] rows]).
  apply group_by_keys.
Qed.

Lemma contacts_rows_NoDup (s : Store) :
  NoDup (List.map contacts_select
           (group_by (fun '(h, _) => (h_ROWID h, h_id h)) (contacts_from s))).
Proof.
  apply (NoDup_fmap_1 (fun k => (k_ROWID k, k_phone_number k))).
  change (NoDup (List.map (fun k => (k_ROWID k, k_phone_number k))
                   (List.map contacts_select
                      (group_by (fun '(h, _) => (h_ROWID h, h_id h)) (contacts_from s))))).
  rewrite contacts_rows_keys. apply NoDup_remove_dups.
Qed.

End SummaryFacts.
Import SummaryFacts.

(** X8. For every store, every row of the per-handle summary counts at least
    one message, also the row of a handle that has none, and its received and
    sent counts together never exceed its message count. *)
Theorem summary_row_bounds (s : Store) (k : contacts_result) :
  k ∈ contactsQuery s ->
  1 <= k_message_count k
  /\ k_received_count k + k_sent_count k <= k_message_count k.
Proof.
  intros (g & Hg & ->)%contactsQuery_elem. destruct g as [[rowid id] rows].
  cbn [contacts_select k_message_count k_received_count k_sent_count].
  split; [by eapply group_by_nonempty | apply count_flag_le].
Qed.

Lemma summary_row_bounds_witness :
  1 <= 1 /\ 0 + 0 <= 1.
Proof.
  apply (summary_row_bounds silent_handle
           {| k_ROWID := 1; k_phone_number := "+15551234567";
              k_message_count := 1; k_received_count := 0; k_sent_count := 0 |}).
  vm_compute. apply list_elem_of_here.
Defined.

Lemma contactsQuery_handles (s : Store) :
  NoDup (List.map h_ROWID (handle s)) ->
  List.map (fun k => (k_ROWID k, k_phone_number k)) (contactsQuery s)
  ≡ₚ List.map (fun h => (h_ROWID h, h_id h)) (handle s).
Proof.
  intros Hnd.
  unfold contactsQuery. rewrite order_by_perm.
  rewrite remove_dups_NoDup by apply contacts_rows_NoDup.
  rewrite contacts_rows_keys.
  apply NoDup_Permutation.
  - apply NoDup_remove_dups.
  - apply (NoDup_fmap_1 fst).
    change (NoDup (List.map fst (List.map (fun h => (h_ROWID h, h_id h)) (handle s)))).
    by rewrite List.map_map.
  - intros x. rewrite elem_of_remove_dups, !list_elem_of_In, !List.in_map_iff.
    split.
    + intros ([h om] & <- & Hrow%list_elem_of_In).
      exists h. split; [done|]. apply list_elem_of_In.
      by eapply left_join_fst.
    + intros (h & <- & Hh%list_elem_of_In).
      destruct (left_join_covers (fun h m => (h_ROWID h =? m_handle_id m)%Z)
                  (handle s) (message s) h Hh) as [om Hrow].
      exists (h, om). split; [done|]. by apply list_elem_of_In.
Qed.

(** X9. When the row ids of the handles are unique, the per-handle summary
    has exactly one row for every handle of the store, with or without
    messages, so uniqueContacts is the number of handles; and its rows are
    ordered by message count, largest first. *)
Theorem summary_one_row_per_handle (s : Store) :
  NoDup (List.map h_ROWID (handle s)) ->
  List.map (fun k => (k_ROWID k, k_phone_number k)) (contactsQuery s)
  ≡ₚ List.map (fun h => (h_ROWID h, h_id h)) (handle s)
  /\ List.length (contactsQuery s) = List.length (handle s)
  /\ Sorted (desc (fun k => Z.of_nat (k_message_count k))) (contactsQuery s).
Proof.
  intros Hnd. pose proof (contactsQuery_handles s Hnd) as Hperm.
  split_and!; [done| |].
  - apply Permutation_length in Hperm. by rewrite !List.length_map in Hperm.
  - apply order_by_sorted. apply _.
Qed.

Lemma summary_one_row_per_handle_witness :
  List.length (contactsQuery silent_handle) = 1.
Proof.
  destruct (summary_one_row_per_handle silent_handle) as (_ & H & _).
  - simpl. repeat constructor. set_solver.
  - exact H.
Defined.

(** ** The time series, for every store *)

Module SeriesFacts.

(** The rows of a count per group: keys without repetition, every count at
    least one, and the counts add up to the number of grouped rows. *)
Definition counted {A K} `{EqDecision K} (key : A -> K) (rows : list A)
  : list (K * nat) :=
  List.map (fun '(k, g) => (k, List.length g)) (group_by key rows).

Lemma counted_keys {A K} `{EqDecision K} (key : A -> K) (rows : list A) :
  List.map fst (counted key rows) = remove_dups (List.map key rows).
Proof.
  unfold counted. rewrite List.map_map.
  rewrite (List.map_ext _ fst) by (by intros [k g]). apply group_by_keys.
Qed.

Lemma counted_total {A K} `{EqDecision K} (key : A -> K) (rows : list A) :
  sum_list_with snd (counted key rows) = List.length rows.
Proof.
  unfold counted. rewrite sum_map, <- (group_by_total key).
  apply sum_ext. by intros [k g] _.
Qed.

Lemma counted_positive {A K} `{EqDecision K} (key : A -> K) (rows : list A) k n :
  (k, n) ∈ counted key rows -> 1 <= n /\ exists r, r ∈ rows /\ key r = k.
Proof.
  unfold counted. intros H%list_elem_of_In%List.in_map_iff.
  destruct H as ([k' g] & [= <- <-] & Hg%list_elem_of_In).
  split; [by eapply group_by_nonempty|].
  by apply group_by_elem in Hg as [_ ?].
Qed.

Lemma sum_take {A} (f : A -> nat) (n : nat) (l : list A) :
  sum_list_with f (firstn n l) <= sum_list_with f l.
Proof.
  revert n; induction l as [|x l IH]; intros [|n]; simpl; try lia.
  specialize (IH n). lia.
Qed.

Global Instance desc_trans {A} (key : A -> Z) : Transitive (desc key).
Proof. intros x y z. unfold desc. lia. Qed.

Global Instance asc_trans {A} (key : A -> Z) : Transitive (asc key).
Proof. intros x y z. unfold asc. lia. Qed.

End SeriesFacts.
Import SeriesFacts.

(** X10. For every store, the hourly statistics have one row for every hour
    of the day in which a message was sent or received and no other: at most
    24 rows, in ascending order of the hour, every count at least one, and
    the counts add up to the number of messages of the store. *)
Theorem hourly_statistics (tz : Z -> Z) (s : Store) :
  sum_list_with snd (hourlyStatsQuery tz s) = List.length (message s)
  /\ Forall (fun row => 1 <= snd row) (hourlyStatsQuery tz s)
  /\ (forall hour, hour ∈ List.map fst (hourlyStatsQuery tz s)
                   <-> exists m, m ∈ message s /\ hour_of tz (m_date m) = hour)
  /\ List.length (hourlyStatsQuery tz s) <= 24
  /\ Sorted (asc fst) (hourlyStatsQuery tz s).
Proof.
  assert (hourlyStatsQuery tz s
          ≡ₚ counted (fun m => hour_of tz (m_date m)) (message s)) as Hperm
    by apply order_by_perm.
  assert (forall hour, hour ∈ List.map fst (hourlyStatsQuery tz s)
                       <-> exists m, m ∈ message s /\ hour_of tz (m_date m) = hour)
    as Hhours.
  { intros hour. rewrite hourlyStatsQuery_hours, elem_of_remove_dups.
    rewrite list_elem_of_In, List.in_map_iff.
    split.
    - intros (m & Hm & Hin). exists m. by rewrite list_elem_of_In.
    - intros (m & Hin & Hm). exists m. by rewrite <- list_elem_of_In. }
  split_and!.
  - rewrite Hperm. apply counted_total.
  - apply Forall_forall. intros [hour n] Hin. rewrite Hperm in Hin.
    by apply counted_positive in Hin as [? _].
  - exact Hhours.
  - rewrite <- (List.length_map fst).
    transitivity (List.length (seqZ 0 24)); [|by rewrite length_seqZ].
    apply submseteq_length, NoDup_submseteq.
    + rewrite hourlyStatsQuery_hours. apply NoDup_remove_dups.
    + intros hour (m & _ & <-)%Hhours. apply elem_of_seqZ.
      pose proof (hour_of_range tz (m_date m)). lia.
  - apply order_by_sorted. apply _.
Qed.

(** X11. For every store, the daily statistics list each day at most once,
    latest day first, with counts of at least one that add up to at most the
    number of messages; and they keep the most recent days: a message whose
    day is not listed is older than every day that is. *)
Theorem daily_statistics (tz : Z -> Z) (s : Store) :
  NoDup (List.map fst (dailyStatsQuery tz s))
  /\ Sorted (desc fst) (dailyStatsQuery tz s)
  /\ Forall (fun row => 1 <= snd row) (dailyStatsQuery tz s)
  /\ sum_list_with snd (dailyStatsQuery tz s) <= List.length (message s)
  /\ (forall m row,
        m ∈ message s -> row ∈ dailyStatsQuery tz s ->
        day_of tz (m_date m) ∉ List.map fst (dailyStatsQuery tz s) ->
        (day_of tz (m_date m) < fst row)%Z).
Proof.
  unfold dailyStatsQuery, limit.
  set (all := order_by (desc fst) _).
  assert (all ≡ₚ counted (fun m => day_of tz (m_date m)) (message s)) as Hperm
    by apply order_by_perm.
  assert (NoDup (List.map fst all)) as Hnd.
  { rewrite Hperm, counted_keys. apply NoDup_remove_dups. }
  assert (StronglySorted (desc fst) all) as Hsorted.
  { apply Sorted_StronglySorted; [apply _|]. apply order_by_sorted. apply _. }
  rewrite <- (firstn_skipn 365 all) in Hnd, Hsorted.
  rewrite List.map_app in Hnd. apply NoDup_app in Hnd as (Hnd1 & Hdisj & _).
  split_and!.
  - done.
  - apply StronglySorted_Sorted. by eapply StronglySorted_app_1_l.
  - apply Forall_take, Forall_forall. intros [day n] Hin. rewrite Hperm in Hin.
    by apply counted_positive in Hin as [? _].
  - etrans; [apply sum_take|]. rewrite Hperm. by rewrite counted_total.
  - intros m row Hm Hrow Hout.
    assert (day_of tz (m_date m) ∈ List.map fst all) as Hday.
    { rewrite Hperm, counted_keys, elem_of_remove_dups.
      apply list_elem_of_In, List.in_map_iff. exists m.
      split; [done|]. by apply list_elem_of_In. }
    rewrite <- (firstn_skipn 365 all), List.map_app in Hday.
    apply elem_of_app in Hday as [Hday|Hday]; [done|].
    apply list_elem_of_In, List.in_map_iff in Hday as (row' & Heq & Hrow').
    apply list_elem_of_In in Hrow'.
    pose proof (StronglySorted_app_1_elem_of _ _ _ row row' Hsorted Hrow Hrow') as Hle.
    unfold desc in Hle.
    assert (fst row <> fst row') as Hne.
    { intros Heq'. apply (Hdisj (fst row)).
      - apply list_elem_of_In, List.in_map. by apply list_elem_of_In.
      - rewrite Heq'. apply list_elem_of_In, List.in_map. by apply list_elem_of_In. }
    lia.
Qed.

Lemma long_history_daily :
  dailyStatsQuery (fun _ => 0%Z) long_history
  = List.map (fun i => ((11688 - i)%Z, 1)) (seqZ 0 365).
Proof. vm_compute. reflexivity. Qed.

Lemma daily_statistics_witness :
  (day_of (fun _ => 0%Z) 0 < 11688)%Z.
Proof.
  destruct (daily_statistics (fun _ => 0%Z) long_history) as (_ & _ & _ & _ & H).
  apply (H (message_at 1 0 0 1) (11688%Z, 1)).
  - apply list_elem_of_here.
  - rewrite long_history_daily. apply list_elem_of_here.
  - rewrite long_history_daily.
    apply (bool_decide_unpack _). vm_compute. exact I.
Defined.

(** ** The all-messages result, for every store *)

Module MessagesFacts.

Lemma left_join_length_ge {A B} (on : A -> B -> bool) (l : list A) (r : list B) :
  List.length l <= List.length (left_join on l r).
Proof.
  unfold left_join. induction l as [|a l IH]; [done|].
  change (flat_map ?f (a :: l)) with (f a ++ flat_map f l)%list.
  rewrite List.length_app. revert IH.
  generalize (List.length (flat_map
    (fun a => match List.filter (on a) r with
              | [] => [(a, None)]
              | bs => List.map (fun b => (a, Some b)) bs
              end) l)).
  intros n IH. destruct (List.filter (on a) r); simpl; lia.
Qed.

Lemma messages_from_elem (s : Store) m oh oj oc :
  (m, oh, oj, oc) ∈ messages_from s ->
  m ∈ message s /\ phone_number_of s m (h_id <$> oh).
Proof.
  unfold messages_from. intros H.
  do 2 apply left_join_fst in H.
  pose proof (left_join_fst _ _ _ _ _ H) as Hm. split; [done|].
  apply left_join_elem in H as [[-> Hnone]|(h & -> & Hh & Hon)]; simpl.
  - intros h Hh Heq.
    assert (List.In h (List.filter (fun h => (m_handle_id m =? h_ROWID h)%Z) (handle s)))
      as Hin.
    { apply List.filter_In. split; [by apply list_elem_of_In|].
      apply Z.eqb_eq. done. }
    by rewrite Hnone in Hin.
  - exists h. apply Z.eqb_eq in Hon. done.
Qed.

Lemma messages_from_covers (s : Store) m :
  m ∈ message s -> exists oh oj oc, (m, oh, oj, oc) ∈ messages_from s.
Proof.
  intros Hm. unfold messages_from.
  destruct (left_join_covers (fun m h => (m_handle_id m =? h_ROWID h)%Z)
              (message s) (handle s) m Hm) as [oh H1].
  destruct (left_join_covers (fun '(m, h) j => (m_ROWID m =? cmj_message_id j)%Z)
              _ (chat_message_join s) _ H1) as [oj H2].
  destruct (left_join_covers
              (fun '(m, h, j) c =>
                 match j with
                 | Some j => (cmj_chat_id j =? c_ROWID c)%Z
                 | None => false
                 end) _ (chat s) _ H2) as [oc H3].
  eauto.
Qed.

End MessagesFacts.
Import MessagesFacts.

(** X12. For every store, the all-messages result loses no message and
    invents none: every message of the store is shown by at least one row
    (with its row id, guid, text, direction flag and handle id), every row
    shows a message of the store, with the id of a handle the message points
    to as its phone number, or none when there is no such handle; so
    totalMessages is never less than the number of messages, and
    equal to it when row ids are unique and no message is joined to more than
    one chat. *)
Theorem all_messages_complete (tz : Z -> Z) (s : Store) :
  (forall m, m ∈ message s -> exists r, r ∈ messagesQuery tz s /\ shows r m)
  /\ (forall r, r ∈ messagesQuery tz s ->
        exists m, m ∈ message s /\ shows r m
                  /\ phone_number_of s m (r_phone_number r))
  /\ List.length (message s) <= List.length (messagesQuery tz s)
  /\ (keys_unique s -> List.length (messagesQuery tz s) = List.length (message s)).
Proof.
  split_and!.
  - intros m (oh & oj & oc & H)%messages_from_covers.
    exists (messages_select tz (m, oh, oj, oc)). split; [|by repeat split].
    unfold messagesQuery. rewrite order_by_perm.
    apply list_elem_of_In, List.in_map. by apply list_elem_of_In.
  - intros r. unfold messagesQuery. rewrite order_by_perm.
    intros H%list_elem_of_In%List.in_map_iff.
    destruct H as ([[[m oh] oj] oc] & <- & H%list_elem_of_In).
    apply messages_from_elem in H as [Hm Hp].
    exists m. split_and!; [done| by repeat split | done].
  - unfold messagesQuery. rewrite (Permutation_length (order_by_perm _ _)).
    rewrite List.length_map. unfold messages_from.
    etrans; [|apply left_join_length_ge].
    etrans; [|apply left_join_length_ge].
    apply left_join_length_ge.
  - apply messagesQuery_length.
Qed.

Lemma all_messages_complete_witness :
  List.length (messagesQuery (fun _ => 0%Z) two_messages) = 2.
Proof.
  destruct (all_messages_complete (fun _ => 0%Z) two_messages) as (_ & _ & _ & H).
  rewrite H; [done|].
  unfold keys_unique. simpl. split_and!; repeat constructor; set_solver.
Defined.

(** ** The handler, case by case *)

Lemma POST_cases request w :
  fst (POST request w)
  = Returned
      match file request with
      | None => JsonError 400 "No file provided"
      | Some f =>
          match wasm_missing w with
          | Some e =>
              JsonError 500 (if Str.is_empty e then "Failed to analyze chat.db" else e)
          | None =>
              match f with
              | Db s => Json (analysis w s (contactsFile request))
              | NotDb e =>
                  JsonError 500
                    (if Str.is_empty e then "Failed to analyze chat.db" else e)
              end
          end
      end
  /\ open_databases (snd (POST request w))
     = (if query_fails request w then S (open_databases w) else open_databases w).
Proof.
  destruct request as [[f|] cf]; [|split; reflexivity].
  unfold POST, try_catch, bind, query_fails. cbn [file contactsFile].
  destruct (read_contacts_result cf w) as (Hr & Htz & Hwasm & Hopen).
  destruct (read_contacts cf w) as [r w1]. simpl in Hr, Htz, Hwasm, Hopen. subst r.
  unfold initSqlJs. rewrite Hwasm.
  destruct (wasm_missing w) as [e|]; [destruct f; simpl; by rewrite Hopen|].
  destruct f as [s|e]; simpl; rewrite ?Htz, ?Hopen; done.
Qed.

(** X13. What a request is answered with.  Without a file the answer is
    status 400 and nothing else happens: the contacts are not read, no
    database is opened, nothing is logged.  With a file the answer is a
    result exactly when the engine loads and the queries can read the upload,
    and status 500 otherwise.  An error answer always carries a message. *)
Theorem response_kinds (request : Request) (w : World) :
  (file request = None ->
     POST request w = (Returned (JsonError 400 "No file provided"), w))
  /\ (succeeds (fst (POST request w))
      <-> exists s, file request = Some (Db s) /\ wasm_missing w = None)
  /\ (forall status message,
        fst (POST request w) = Returned (JsonError status message) ->
        message <> ""
        /\ (status = 400%Z /\ file request = None
            \/ status = 500%Z /\ file request <> None)).
Proof.
  destruct (POST_cases request w) as [Hres _].
  split_and!.
  - destruct request as [[f|] cf]; [discriminate|done].
  - unfold succeeds. rewrite Hres.
    destruct (file request) as [[s|e]|], (wasm_missing w) as [e'|];
      split; try (intros [b [=]]); try (intros (s' & [=] & [=])); eauto.
  - intros status message. rewrite Hres.
    destruct (file request) as [[s|e]|], (wasm_missing w) as [e'|];
      intros [= <- <-]; (split; [|by auto]);
      try done; try (by destruct e'); by destruct e.
Qed.

Lemma response_kinds_witness :
  POST {| file := None; contactsFile := Some (Text jane) |} quiet_world
  = (Returned (JsonError 400 "No file provided"), quiet_world).
Proof. apply (proj1 (response_kinds _ quiet_world)). reflexivity. Defined.

(** X14. The account of database instances: a request leaves one more
    instance open than it found when it reaches a failing query, and as many
    as it found in every other case (no file, engine not loaded, success). *)
Theorem database_account (request : Request) (w : World) :
  open_databases (snd (POST request w))
  = if query_fails request w then S (open_databases w) else open_databases w.
Proof. apply POST_cases. Qed.

(** X15. The contacts upload only gives names: two requests that differ in
    nothing but their contacts get results that are the same once the
    resolved names are taken out, with the same summary and time series. *)
Theorem contacts_only_name (w : World) (f : db_file) (cf cf' : option contacts_file)
    (body body' : AnalysisResult) :
  fst (POST {| file := Some f; contactsFile := cf |} w) = Returned (Json body) ->
  fst (POST {| file := Some f; contactsFile := cf' |} w) = Returned (Json body') ->
  without_names body = without_names body'
  /\ summary body = summary body'
  /\ dailyStats body = dailyStats body'
  /\ hourlyStats body = hourlyStats body'.
Proof.
  intros (s & [= ->] & _ & ->)%POST_Json_inv (s' & [= <-] & _ & ->)%POST_Json_inv.
  cbn [contactsFile]. split; [|done].
  unfold without_names, analysis, assemble.
  cbn [summary contacts dailyStats hourlyStats messages].
  f_equal.
  - rewrite !List.map_map. done.
  - rewrite <- !List.firstn_map, !List.map_map. done.
Qed.

Lemma contacts_only_name_witness :
  without_names (analysis quiet_world two_messages (Some (Text jane)))
  = without_names (analysis quiet_world two_messages None).
Proof.
  apply (contacts_only_name quiet_world (Db two_messages) (Some (Text jane)) None);
    reflexivity.
Defined.

(** ** Formatting of a phone number *)

Lemma filter_app p a b : Str.filter p (a ++ b) = Str.filter p a ++ Str.filter p b.
Proof.
  induction a as [|c a IH]; [done|].
  change (String c a ++ b) with (String c (a ++ b)). cbn [Str.filter].
  destruct (p c); by rewrite IH.
Qed.

Lemma filter_all p a : Str.forallb p a = true -> Str.filter p a = a.
Proof.
  induction a as [|c a IH]; [done|]. cbn [Str.forallb Str.filter].
  intros [-> H]%andb_true_iff. by rewrite IH.
Qed.

(** X16. Formatting does not matter to the normalizer: two runs of digits
    with any text without a digit between them normalize to the digits. *)
Theorem punctuation_is_ignored (a sep b : string) :
  normalizePhoneNumber sep = "" ->
  Str.forallb is_digit a = true ->
  Str.forallb is_digit b = true ->
  normalizePhoneNumber (a ++ sep ++ b) = a ++ b.
Proof.
  unfold normalizePhoneNumber. intros Hsep Ha Hb.
  by rewrite !filter_app, Hsep, !filter_all.
Qed.

Lemma punctuation_is_ignored_witness :
  normalizePhoneNumber ("555" ++ ") " ++ "1234567") = "555" ++ "1234567".
Proof. apply punctuation_is_ignored; reflexivity. Defined.

(** ** Folded lines *)

Module FoldFacts.

Lemma fold_go_app a r :
  ends_with LF a = false ->
  Str.replace_go [lit LF; one_of [SP; TAB]] "" 0 (a ++ r)
  = Str.replace_go [lit LF; one_of [SP; TAB]] "" 0 a ++ Str.replace_go [lit LF; one_of [SP; TAB]] "" 0 r
  /\ (a <> "" ->
      Str.replace_go [lit LF; one_of [SP; TAB]] "" 1 (a ++ r)
      = Str.replace_go [lit LF; one_of [SP; TAB]] "" 1 a ++ Str.replace_go [lit LF; one_of [SP; TAB]] "" 0 r).
Proof.
  induction a as [|c t IH]; [done|].
  intros Hend.
  destruct t as [|c' t'].
  - simpl in Hend. split; [|done].
    change (String c "" ++ r) with (String c r).
    cbn [Str.replace_go Str.matches_at]. unfold lit.
    rewrite Hend. done.
  - assert (ends_with LF (String c' t') = false) as Hend' by done.
    destruct (IH Hend') as [IH0 IH1]. specialize (IH1 ltac:(done)).
    change (String c (String c' t') ++ r) with (String c (String c' t' ++ r)).
    split.
    + cbn [Str.replace_go]. 
      change (String c' t' ++ r) with (String c' (t' ++ r)).
      cbn [Str.matches_at].
      change (String c' (t' ++ r)) with (String c' t' ++ r).
      destruct (lit LF c && (one_of [SP; TAB] c' && true)).
      * change (List.length [lit LF; one_of [SP; TAB]] - 1) with 1. by rewrite IH1.
      * rewrite IH0. done.
    + intros _. cbn [Str.replace_go]. by rewrite IH0.
Qed.

Lemma fold_folded a ws b :
  ends_with LF a = false ->
  one_of [SP; TAB] ws = true ->
  Str.replace_all [lit LF; one_of [SP; TAB]] "" (a ++ String LF (String ws b))
  = Str.replace_all [lit LF; one_of [SP; TAB]] "" (a ++ b).
Proof.
  intros Ha Hws. unfold Str.replace_all.
  rewrite (proj1 (fold_go_app a _ Ha)), (proj1 (fold_go_app a b Ha)).
  f_equal. cbn [Str.replace_go Str.matches_at]. rewrite Hws.
  done.
Qed.

End FoldFacts.
Import FoldFacts.

(** X17. A folded line reads as the line itself: in an address book without
    carriage returns, a line feed followed by a space or a tab, put after any
    character that is not a line feed (or at the very start), makes no
    difference to the directory. *)
Theorem folding_makes_no_difference (a b : string) (ws : ascii) :
  free_of CR a = true ->
  free_of CR b = true ->
  ends_with LF a = false ->
  one_of [SP; TAB] ws = true ->
  parseVCard (a ++ String LF (String ws b)) = parseVCard (a ++ b).
Proof.
  intros Ha Hb Hend Hws. unfold parseVCard, contacts_of, normalize_lines.
  assert (free_of CR (a ++ String LF (String ws b)) = true) as H1.
  { unfold free_of in *. rewrite forallb_app, Ha.
    cbn [Str.forallb]. rewrite Hb.
    unfold one_of in Hws. simpl in Hws.
    destruct (Ascii.eqb_spec ws SP) as [->|_]; [done|].
    destruct (Ascii.eqb_spec ws TAB) as [->|_]; done. }
  assert (free_of CR (a ++ b) = true) as H2.
  { unfold free_of in *. by rewrite forallb_app, Ha, Hb. }
  rewrite !(replace_all_absent CR [lit LF]) by done.
  rewrite !(replace_all_absent CR []) by done.
  by rewrite (fold_folded a ws b).
Qed.

Lemma folding_makes_no_difference_witness :
  parseVCard (jane_folded_head ++ String LF (String SP jane_folded_tail))
  = parseVCard (jane_folded_head ++ jane_folded_tail).
Proof. apply folding_makes_no_difference; vm_compute; reflexivity. Defined.


(** ** Names in a result *)

Lemma getContactName_named m p name :
  getContactName m p = Some name -> name <> "".
Proof.
  unfold getContactName. destruct p as [p|]; [|done].
  destruct (Str.is_empty p); [done|].
  unfold or_else.
  destruct (m !! normalizePhoneNumber p) as [n|].
  - destruct n; simpl.
    + destruct (m !! _) as [n'|]; [|done]. destruct n'; simpl; congruence.
    + congruence.
  - destruct (m !! _) as [n'|]; [|done]. destruct n'; simpl; congruence.
Qed.

(** X18. The names of a result agree: a listed message and a contact row
    with the same handle string carry the same resolved name, two listed
    messages whose handle strings have the same digits carry the same name,
    and a resolved name is never the empty string. *)
Theorem names_agree (request : Request) (w : World) (body : AnalysisResult) :
  fst (POST request w) = Returned (Json body) ->
  (forall m c,
     m ∈ messages body -> c ∈ contacts body ->
     Message.phoneNumber m = Some (Contact.phoneNumber c) ->
     Message.contactName m = Contact.contactName c)
  /\ (forall m m' p p',
        m ∈ messages body -> m' ∈ messages body ->
        Message.phoneNumber m = Some p -> Message.phoneNumber m' = Some p' ->
        p <> "" -> p' <> "" ->
        normalizePhoneNumber p = normalizePhoneNumber p' ->
        Message.contactName m = Message.contactName m')
  /\ Forall (fun m => Message.contactName m <> Some "") (messages body)
  /\ Forall (fun c => Contact.contactName c <> Some "") (contacts body).
Proof.
  intros (s & _ & _ & ->)%POST_Json_inv.
  unfold analysis, assemble. cbn [messages contacts].
  set (dir := directory_of _).
  split_and!.
  - intros m c (r & <- & _)%subseteq_take%list_elem_of_In%List.in_map_iff
      (k & <- & _)%list_elem_of_In%List.in_map_iff.
    cbn [format_message format_contact Message.phoneNumber Message.contactName
         Contact.phoneNumber Contact.contactName].
    by intros ->.
  - intros m m' p p' (r & <- & _)%subseteq_take%list_elem_of_In%List.in_map_iff
      (r' & <- & _)%subseteq_take%list_elem_of_In%List.in_map_iff.
    cbn [format_message Message.phoneNumber Message.contactName].
    intros -> -> Hp Hp' Heq. unfold getContactName.
    destruct p; [done|]. destruct p'; [done|]. cbn [Str.is_empty].
    by rewrite Heq.
  - apply Forall_forall.
    intros m (r & <- & _)%subseteq_take%list_elem_of_In%List.in_map_iff.
    cbn [format_message Message.contactName].
    intros H%getContactName_named. done.
  - apply Forall_forall.
    intros c (k & <- & _)%list_elem_of_In%List.in_map_iff.
    cbn [format_contact Contact.contactName].
    intros H%getContactName_named. done.
Qed.

Lemma names_agree_witness :
  Forall (fun m => Message.contactName m <> Some "")
    (messages (analysis quiet_world two_messages (Some (Text jane)))).
Proof.
  apply (names_agree {| file := Some (Db two_messages);
                        contactsFile := Some (Text jane) |} quiet_world).
  apply POST_success. reflexivity.
Defined.

(** ** The page: one analysis *)

Lemma handleUpload_end_eq net body st w :
  Page.handleUpload_end net body st w
  = (Returned (Page.setLoading false (answer_shown net body w st)),
     match net with Up => snd (POST body w) | Down _ => w end).
Proof.
  destruct net as [|message]; [|done].
  unfold Page.handleUpload_end, bind, try_catch, fetch, answer_shown.
  destruct (POST_cases body w) as [Hres _].
  destruct (POST body w) as [r w']. simpl in Hres. subst r. cbn [fst snd].
  destruct (file body) as [[s|e]|], (wasm_missing w) as [e'|];
    simpl; try done; try (by destruct e'); by destruct e.
Qed.

Lemma answer_never_throws request w :
  match fst (POST request w) with
  | Returned (Json _) => True
  | Returned (JsonError _ message) => message <> ""
  | Thrown _ => False
  end.
Proof.
  destruct (POST_cases request w) as [-> _].
  destruct (file request) as [[s|e]|], (wasm_missing w) as [e'|];
    try done; try (by destruct e'); by destruct e.
Qed.

(** X19. One analysis of a selected file, from the click to the answer, with
    nothing in between.  The handler ends with [loading] off and the
    selection as it was; when the server is reached the page shows what the
    server answered: its result, with no error, or its error message, beside
    the result shown before; when the server is not reached the page shows
    the message of the failure, or a default text when that is empty. *)
Theorem upload_shows_the_answer (net : network) (st : Page.State) (w : World)
    (f : db_file) :
  Page.file st = Some f ->
  exists st' w',
    Page.handleUpload net st w = (Returned st', w')
    /\ Page.loading st' = false
    /\ Page.file st' = Page.file st
    /\ Page.contactsFile st' = Page.contactsFile st
    /\ match net with
       | Up =>
           w' = snd (POST (formData f (Page.contactsFile st)) w)
           /\ match fst (POST (formData f (Page.contactsFile st)) w) with
              | Returned (Json result) =>
                  Page.data st' = Some (Analysis result)
                  /\ Page.error st' = None
              | Returned (JsonError _ message) =>
                  Page.data st' = Page.data st
                  /\ Page.error st' = Some message
                  /\ Page.error_box st' = Some message
              | Thrown _ => False
              end
       | Down message =>
           w' = w
           /\ Page.data st' = Page.data st
           /\ Page.error st'
              = Some (if Str.is_empty message
                      then "An error occurred while analyzing the file"
                      else message)
       end.
Proof.
  intros H. unfold Page.handleUpload, Page.handleUpload_begin. rewrite H.
  rewrite handleUpload_end_eq. eexists _, _. split; [done|].
  unfold answer_shown. destruct net as [|message].
  - pose proof (answer_never_throws (formData f (Page.contactsFile st)) w) as Hr.
    cbn [Page.setError Page.setLoading Page.contactsFile] in *.
    destruct (fst (POST _ w)) as [[result|status message]|e]; [..|done].
    + done.
    + split_and!; try done. unfold Page.error_box. simpl. by destruct message.
  - done.
Qed.

Lemma upload_shows_the_answer_witness :
  (exists st' w',
     Page.handleUpload Up
       (Page.handleFileChange (Some (Db two_messages)) (Page.view Page.initial))
       quiet_world
     = (Returned st', w')
     /\ Page.loading st' = false
     /\ Page.data st' = Some (Analysis (analysis quiet_world two_messages None))
     /\ Page.error st' = None)
  /\ (exists st' w',
        Page.handleUpload Up
          (Page.handleFileChange (Some (NotDb "file is not a database"))
             (Page.view Page.initial))
          quiet_world
        = (Returned st', w')
        /\ Page.loading st' = false
        /\ Page.data st' = None
        /\ Page.error_box st' = Some "file is not a database").
Proof.
  split.
  - destruct (upload_shows_the_answer Up
                (Page.handleFileChange (Some (Db two_messages)) (Page.view Page.initial))
                quiet_world (Db two_messages) eq_refl)
      as (st' & w' & Hrun & Hloading & _ & _ & _ & Hshown).
    unfold formData in Hshown.
    rewrite (POST_success quiet_world two_messages _ eq_refl) in Hshown.
    destruct Hshown as [Hdata Herror].
    exists st', w'. done.
  - destruct (upload_shows_the_answer Up
                (Page.handleFileChange (Some (NotDb "file is not a database"))
                   (Page.view Page.initial))
                quiet_world (NotDb "file is not a database") eq_refl)
      as (st' & w' & Hrun & Hloading & _ & _ & _ & Hshown).
    simpl in Hshown. destruct Hshown as (Hdata & _ & Hbox).
    exists st', w'. done.
Defined.

Ltac page_facts :=
  unfold consistent; simpl; split_and!; eauto;
  try done;
  try (split; [discriminate | by intros [? [=]]]);
  try (by intros [? [=]]);
  try (by intros ? [= <-]; simpl; eauto);
  try congruence.

Lemma step_consistent e p w :
  consistent p ->
  exists p' w', Page.step e p w = (Returned p', w') /\ consistent p'.
Proof.
  intros (Hload & Hbody & Hfile & Hdata & Herr).
  destruct p as [[f cf l d err] flight]. simpl in *.
  destruct e as [picked|picked|picked| | |net]; simpl.
  - eexists _, _. split; [done|]. destruct picked as [f'|]; page_facts.
  - eexists _, _. split; [done|]. destruct picked as [f'|]; page_facts.
  - eexists _, _. split; [done|]. destruct picked as [f'|]; page_facts.
  - unfold Page.remove_shown. simpl.
    destruct cf; eexists _, _; (split; [done|]); page_facts.
  - unfold Page.analyze_enabled, Page.handleUpload_begin. simpl.
    destruct f as [f|]; [destruct l|]; simpl; eexists _, _; (split; [done|]);
      page_facts.
  - destruct flight as [body|]; [|eexists _, _; split; [done|]; page_facts].
    unfold bind. rewrite handleUpload_end_eq. simpl.
    eexists _, _. split; [done|].
    assert (is_Some f) as Hf by eauto.
    unfold answer_shown.
    destruct net as [|message].
    + pose proof (answer_never_throws body w) as Hr.
      destruct (fst (POST body w)) as [[result|status message]|e]; [..|done];
        page_facts.
    + page_facts. by destruct message.
Qed.

Lemma run_consistent events : forall p w,
  consistent p ->
  exists p' w', Page.run events p w = (Returned p', w') /\ consistent p'.
Proof.
  induction events as [|e events IH]; intros p w Hp; [by eexists _, _|].
  destruct (step_consistent e p w Hp) as (p1 & w1 & Hstep & Hp1).
  destruct (IH p1 w1 Hp1) as (p' & w' & Hrun & Hp').
  exists p', w'. split; [|done].
  cbn [Page.run]. unfold bind. by rewrite Hstep.
Qed.

(** X20. After any sequence of events from the initial page, no handler
    has thrown, and: [loading] is set exactly while a request awaits its
    answer; the request carries a database file; a file is selected whenever
    a request is awaited or a result is shown; what is shown as the result is
    an analysis, never an error object; and the error is never the empty
    string. *)
Theorem page_stays_consistent (events : list Page.event) (w : World) :
  exists p w', Page.run events Page.initial w = (Returned p, w') /\ consistent p.
Proof.
  apply run_consistent. page_facts.
Qed.

(** X21. The answer that arrives is shown whatever has been selected in the
    meantime: when the awaited request carried a readable database and the
    engine loads, the page shows the analysis of the file and the contacts
    that were sent, and leaves the current selection and the error as they
    are. *)
Theorem answer_is_for_the_request_sent (p : Page.Session) (body : Request)
    (s : Store) (w : World) :
  Page.in_flight p = Some body ->
  file body = Some (Db s) ->
  wasm_missing w = None ->
  exists st' w',
    Page.step (Page.Answer Up) p w
    = (Returned {| Page.view := st'; Page.in_flight := None |}, w')
    /\ Page.data st' = Some (Analysis (analysis w s (contactsFile body)))
    /\ Page.loading st' = false
    /\ Page.file st' = Page.file (Page.view p)
    /\ Page.contactsFile st' = Page.contactsFile (Page.view p)
    /\ Page.error st' = Page.error (Page.view p).
Proof.
  intros Hflight Hfile Hw. cbn [Page.step]. rewrite Hflight.
  unfold bind. rewrite handleUpload_end_eq. eexists _, _. split; [done|].
  unfold answer_shown.
  destruct body as [f cf]. simpl in Hfile. subst f.
  by rewrite (POST_success w s cf Hw).
Qed.

Lemma answer_is_for_the_request_sent_witness :
  exists st' w',
    Page.step (Page.Answer Up) (waiting_for (Db two_messages) (Db silent_handle))
      quiet_world
    = (Returned {| Page.view := st'; Page.in_flight := None |}, w')
    /\ Page.data st' = Some (Analysis (analysis quiet_world two_messages None))
    /\ Page.file st' = Some (Db silent_handle).
Proof.
  destruct (answer_is_for_the_request_sent
              (waiting_for (Db two_messages) (Db silent_handle))
              (formData (Db two_messages) None) two_messages quiet_world)
    as (st' & w' & Hstep & Hdata & _ & Hfile & _); [reflexivity..|].
  exists st', w'. done.
Defined.

(** ** The page: what is drawn *)


Lemma dailyStatsQuery_order (tz : Z -> Z) (s : Store) :
  StronglySorted (fun x y => (fst y < fst x)%Z) (dailyStatsQuery tz s).
Proof.
  unfold dailyStatsQuery, limit.
  set (all := order_by (desc fst) _).
  assert (all ≡ₚ counted (fun m => day_of tz (m_date m)) (message s)) as Hperm
    by apply order_by_perm.
  assert (NoDup (List.map fst all)) as Hnd.
  { rewrite Hperm, counted_keys. apply NoDup_remove_dups. }
  assert (StronglySorted (desc fst) all) as Hsorted.
  { apply Sorted_StronglySorted; [apply _|]. apply order_by_sorted. apply _. }
  assert (StronglySorted (fun x y => (fst y < fst x)%Z) all) as Hstrict.
  { clear Hperm. induction Hsorted as [|x l Hl IH Hx]; [constructor|].
    cbn [List.map] in Hnd. apply NoDup_cons in Hnd as [Hx' Hnd].
    constructor; [by apply IH|].
    rewrite Forall_forall in Hx |- *. intros y Hy.
    specialize (Hx y Hy). unfold desc in Hx.
    assert (fst y <> fst x); [|lia].
    intros Heq. apply Hx'. rewrite <- Heq.
    apply list_elem_of_In, List.in_map. by apply list_elem_of_In. }
  rewrite <- (firstn_skipn 365 all) in Hstrict.
  by eapply StronglySorted_app_1_l.
Qed.

(** X22. The chart of messages over time runs forward: for every result
    the days handed to the chart are the days of the result, each once, in
    strictly increasing order. *)
Theorem chart_runs_forward (request : Request) (w : World) (body : AnalysisResult) :
  fst (POST request w) = Returned (Json body) ->
  Sorted (fun a b => (DailyStat.day a < DailyStat.day b)%Z) (Page.chart_days body)
  /\ Page.chart_days body ≡ₚ dailyStats body.
Proof.
  intros (s & _ & _ & ->)%POST_Json_inv.
  unfold Page.chart_days, analysis, assemble. cbn [dailyStats].
  split.
  - apply (Sorted_reverse (fun a b => (DailyStat.day b < DailyStat.day a)%Z)).
    apply (Sorted_fmap _ (fun x y : Z * nat => (fst y < fst x)%Z)); [done|].
    apply StronglySorted_Sorted, dailyStatsQuery_order.
  - apply reverse_Permutation.
Qed.

Lemma chart_runs_forward_witness :
  Sorted (fun a b => (DailyStat.day a < DailyStat.day b)%Z)
    (Page.chart_days (analysis quiet_world long_history None))
  /\ List.length (Page.chart_days (analysis quiet_world long_history None)) = 365.
Proof.
  destruct (chart_runs_forward
              {| file := Some (Db long_history); contactsFile := None |}
              quiet_world (analysis quiet_world long_history None))
    as [Hsorted Hperm].
  - apply POST_success. reflexivity.
  - split; [exact Hsorted|].
    rewrite (Permutation_length Hperm).
    unfold analysis, assemble. cbn [dailyStats tz quiet_world].
    by rewrite List.length_map, long_history_daily, List.length_map, length_seqZ.
Defined.

(** X23. The table of top contacts: for every result it has at most 20
    rows, no contact left out has more messages than a contact shown, its row
    keys are distinct when the row ids of the handles are, and a contact with
    a resolved name is shown by that name with its number (or Unknown)
    beneath. *)
Theorem table_shows_the_busiest (request : Request) (w : World) (body : AnalysisResult) :
  fst (POST request w) = Returned (Json body) ->
  List.length (Page.table_rows body) <= 20
  /\ (forall c c',
        c ∈ Page.table_rows body -> c' ∈ skipn 20 (contacts body) ->
        Contact.messageCount c' <= Contact.messageCount c)
  /\ (forall s,
        file request = Some (Db s) -> NoDup (List.map h_ROWID (handle s)) ->
        NoDup (List.map Contact.id (Page.table_rows body)))
  /\ (forall c name,
        c ∈ contacts body -> Contact.contactName c = Some name ->
        Page.contact_cell c
        = (name,
           Some (if Str.is_empty (Contact.phoneNumber c) then "Unknown"
                 else Contact.phoneNumber c))).
Proof.
  intros (s & Hs & _ & ->)%POST_Json_inv.
  unfold Page.table_rows, analysis, assemble. cbn [contacts].
  set (dir := directory_of _).
  split_and!.
  - rewrite List.length_firstn. lia.
  - intros c c' Hc Hc'.
    assert (StronglySorted (desc (fun k => Z.of_nat (k_message_count k)))
              (contactsQuery s)) as Hsorted.
    { apply Sorted_StronglySorted; [apply _|]. apply order_by_sorted. apply _. }
    apply (StronglySorted_fmap (format_contact dir) _
             (desc (fun c => Z.of_nat (Contact.messageCount c)))) in Hsorted;
      [|done].
    change (format_contact dir <$> contactsQuery s)
      with (List.map (format_contact dir) (contactsQuery s)) in Hsorted.
    rewrite <- (firstn_skipn 20 (List.map _ _)) in Hsorted.
    pose proof (StronglySorted_app_1_elem_of _ _ _ c c' Hsorted Hc Hc') as Hle.
    unfold desc in Hle. lia.
  - intros s' Hs' Hnd. rewrite Hs in Hs'. injection Hs' as <-.
    rewrite <- List.firstn_map, List.map_map. cbn [format_contact Contact.id].
    eapply sublist_NoDup; [|apply sublist_take].
    assert (List.map k_ROWID (contactsQuery s) ≡ₚ List.map h_ROWID (handle s)) as ->;
      [|done].
    pose proof (contactsQuery_handles s Hnd) as Hperm.
    apply (fmap_Permutation fst) in Hperm.
    change (List.map fst (List.map (fun k => (k_ROWID k, k_phone_number k))
                            (contactsQuery s))
            ≡ₚ List.map fst (List.map (fun h => (h_ROWID h, h_id h)) (handle s)))
      in Hperm.
    by rewrite !List.map_map in Hperm.
  - intros c name (k & <- & _)%list_elem_of_In%List.in_map_iff Hname.
    unfold Page.contact_cell. rewrite Hname.
    cbn [format_contact Contact.contactName] in Hname.
    apply getContactName_named in Hname. by destruct name.
Qed.

Lemma table_shows_the_busiest_witness :
  List.length (Page.table_rows (analysis quiet_world two_messages None)) <= 20.
Proof.
  apply (table_shows_the_busiest {| file := Some (Db two_messages); contactsFile := None |}
           quiet_world).
  apply POST_success. reflexivity.
Defined.
